(** * PySpur workflow executor: a shallow embedding of
      [backend/pyspur/execution/workflow_executor.py]

    The development follows the Python module top to bottom: the values a
    node output is made of and the output serializer, the workflow
    definition schema, the subworkflow hoisting pass, the constructor of
    [WorkflowExecutor], the per-node protocol [_execute_node], and the driver
    [run].  Python dictionaries and sets whose iteration order does not
    matter are stdpp [gmap]s and [gset]s; [_node_tasks], whose key order is
    zipped against the gathered results, keeps its insertion order in a list
    next to the map. *)

From Stdlib Require Import ZArith.
From stdpp Require Import gmap strings list fin_maps.

Open Scope string_scope.
Open Scope list_scope.
Set Warnings "-register-all".

(* ===================================================================== *)
(** ** Python values *)
(* ===================================================================== *)

(** What [model_dump()] of a node output may contain.  A [PSet] lists its
    elements in the order Python would iterate them; [POther] stands for
    any value none of the [isinstance] tests of the serializer recognises
    (floats, enums, bytes, ...). *)
Inductive PyVal : Type :=
| PNone
| PBool (b : bool)
| PInt (n : Z)
| PStr (s : string)
| PDatetime (t : Z)
| PSet (elems : list PyVal)
| PDict (items : list (PyVal * PyVal))
| PList (items : list PyVal)
| PTuple (items : list PyVal)
| POther (tag : string).

(** [d[k] = v] on an insertion-ordered dictionary with string keys. *)
Fixpoint dict_set {V : Type} (k : string) (v : V) (d : list (string * V))
  : list (string * V) :=
  match d with
  | [] => [(k, v)]
  | (k', v') :: d' =>
      if bool_decide (k = k') then (k', v) :: d' else (k', v') :: dict_set k v d'
  end.

(** A dict comprehension [{k: v for ...}]: items are stored one by one. *)
Definition dict_of_items {V : Type} (items : list (string * V))
  : list (string * V) :=
  foldl (λ d kv, dict_set kv.1 kv.2 d) [] items.

Fixpoint dict_get {V : Type} (k : string) (d : list (string * V)) : option V :=
  match d with
  | [] => None
  | (k', v) :: d' => if bool_decide (k = k') then Some v else dict_get k d'
  end.

(* ===================================================================== *)
(** ** Node outputs *)
(* ===================================================================== *)

(** The two attributes of [HumanInterventionNodeOutput] the scheduler
    reads. *)
Record HumanInterventionNodeOutput : Type := {
  resume_time : option Z;
  blocked_nodes : list string;
}.

(** [BaseNodeOutput]: the attributes seen by [getattr] and [model_dump],
    and, when the object is an instance of [HumanInterventionNodeOutput],
    its pause attributes. *)
Record BaseNodeOutput : Type := {
  fields : list (string * PyVal);
  human_intervention : option HumanInterventionNodeOutput;
}.

Definition model_dump (output : BaseNodeOutput) : list (PyVal * PyVal) :=
  map (λ kv, (PStr kv.1, kv.2)) (fields output).

(** [getattr(output, name, None)]; [output] itself may be [None]. *)
Definition getattr (output : option BaseNodeOutput) (name : string) : PyVal :=
  match output with
  | Some o => default PNone (dict_get name (fields o))
  | None => PNone
  end.

Definition is_not_None (v : PyVal) : bool :=
  match v with PNone => false | _ => true end.

(* ===================================================================== *)
(** ** Output serializer ([_serialize_output]) *)
(* ===================================================================== *)

Section Serializer.
(** [datetime.isoformat] and the builtin [str] (used on dictionary
    keys) are Python's; they are taken as given. *)
Variable isoformat : Z → string.
Variable str : PyVal → string.

Fixpoint _serialize_value (val : PyVal) : PyVal :=
  match val with
  | PDatetime t => PStr (isoformat t)
  | PSet elems => PList elems
  | PDict items =>
      PDict (map (λ kv : string * PyVal, (PStr kv.1, kv.2))
               (dict_of_items
                  (map (λ kv : PyVal * PyVal,
                          match kv with
                          | (key, value) => (str key, _serialize_value value)
                          end) items)))
  | PList items => PList (map _serialize_value items)
  | _ => val
  end.

Definition _serialize_output (output : option BaseNodeOutput)
  : option (list (string * PyVal)) :=
  match output with
  | None => None
  | Some o =>
      let data := model_dump o in
      Some (dict_of_items
              (map (λ kv : PyVal * PyVal, (str kv.1, _serialize_value kv.2)) data))
  end.
End Serializer.

(* ===================================================================== *)
(** ** Workflow definition schema *)
(* ===================================================================== *)

(** The attributes of [WorkflowNodeSchema], [WorkflowLinkSchema] and
    [WorkflowDefinitionSchema] that the executor reads.  The [id] of a node
    is called [node_id] here. *)
Record WorkflowNodeSchema : Type := {
  node_id : string;
  title : string;
  node_type : string;
  config : list (string * PyVal);
  parent_id : option string;
}.

Record WorkflowLinkSchema : Type := {
  source_id : string;
  target_id : string;
  source_handle : option string;
}.

Record WorkflowDefinitionSchema : Type := {
  nodes : list WorkflowNodeSchema;
  links : list WorkflowLinkSchema;
}.

(** Truth value of an [Optional[str]]: [None] and the empty string are
    false. *)
Definition truthy (s : option string) : bool :=
  match s with
  | Some s => negb (bool_decide (s = ""))
  | None => false
  end.

(** [model_dump()] of the schema objects, restricted to the attributes
    above. *)
Definition dump_option_str (s : option string) : PyVal :=
  match s with Some s => PStr s | None => PNone end.

Definition dump_node (node : WorkflowNodeSchema) : PyVal :=
  PDict [ (PStr "id", PStr (node_id node));
          (PStr "title", PStr (title node));
          (PStr "node_type", PStr (node_type node));
          (PStr "config", PDict (map (λ kv, (PStr kv.1, kv.2)) (config node)));
          (PStr "parent_id", dump_option_str (parent_id node)) ].

Definition dump_link (link : WorkflowLinkSchema) : PyVal :=
  PDict [ (PStr "source_id", PStr (source_id link));
          (PStr "target_id", PStr (target_id link));
          (PStr "source_handle", dump_option_str (source_handle link)) ].

Definition dump_workflow (workflow : WorkflowDefinitionSchema) : PyVal :=
  PDict [ (PStr "nodes", PList (map dump_node (nodes workflow)));
          (PStr "links", PList (map dump_link (links workflow))) ].

(* ===================================================================== *)
(** ** Subworkflow hoisting ([_process_subworkflows]) *)
(* ===================================================================== *)

(** [node.model_copy(update={"parent_id": None})] *)
Definition clear_parent (node : WorkflowNodeSchema) : WorkflowNodeSchema :=
  {| node_id := node_id node; title := title node; node_type := node_type node;
     config := config node; parent_id := None |}.

Definition set_config (cfg : list (string * PyVal)) (node : WorkflowNodeSchema)
  : WorkflowNodeSchema :=
  {| node_id := node_id node; title := title node; node_type := node_type node;
     config := cfg; parent_id := parent_id node |}.

(** [nodes_by_parent]: an insertion-ordered dictionary from
    [Optional[str]] to the list of node copies. *)
Fixpoint group_add (p : option string) (n : WorkflowNodeSchema)
    (groups : list (option string * list WorkflowNodeSchema))
  : list (option string * list WorkflowNodeSchema) :=
  match groups with
  | [] => [(p, [n])]
  | (p', ns) :: groups' =>
      if bool_decide (p = p') then (p', ns ++ [n]) :: groups'
      else (p', ns) :: group_add p n groups'
  end.

Fixpoint group_get (p : option string)
    (groups : list (option string * list WorkflowNodeSchema))
  : option (list WorkflowNodeSchema) :=
  match groups with
  | [] => None
  | (p', ns) :: groups' =>
      if bool_decide (p = p') then Some ns else group_get p groups'
  end.

(** One round of the grouping loop. *)
Definition add_node (groups : list (option string * list WorkflowNodeSchema))
    (node : WorkflowNodeSchema)
  : list (option string * list WorkflowNodeSchema) :=
  group_add (parent_id node) (clear_parent node) groups.

Definition nodes_by_parent (workflow : WorkflowDefinitionSchema)
  : list (option string * list WorkflowNodeSchema) :=
  foldl add_node [] (nodes workflow).

(** [link.source_id in child_node_ids and link.target_id in child_node_ids] *)
Definition subworkflow_links (workflow : WorkflowDefinitionSchema)
    (child_nodes : list WorkflowNodeSchema) : list WorkflowLinkSchema :=
  let child_node_ids := map node_id child_nodes in
  List.filter (λ link, bool_decide (source_id link ∈ child_node_ids)
                       && bool_decide (target_id link ∈ child_node_ids))
              (links workflow).

(** The assignment to [parent_node.config] goes through the object found
    by [next(...)], the first root node with that id; the root list holds
    the same object. *)
Fixpoint update_first (pid : string) (f : WorkflowNodeSchema → WorkflowNodeSchema)
    (ns : list WorkflowNodeSchema) : list WorkflowNodeSchema :=
  match ns with
  | [] => []
  | n :: ns' =>
      if bool_decide (node_id n = pid) then f n :: ns'
      else n :: update_first pid f ns'
  end.

Definition attach_subworkflow (workflow : WorkflowDefinitionSchema)
    (root_nodes : list WorkflowNodeSchema)
    (group : option string * list WorkflowNodeSchema)
  : list WorkflowNodeSchema :=
  match group with
  | (None, _) => root_nodes
  | (Some pid, child_nodes) =>
      let subworkflow :=
        {| nodes := child_nodes;
           links := subworkflow_links workflow child_nodes |} in
      update_first pid
        (λ parent_node,
           set_config (dict_set "subworkflow" (dump_workflow subworkflow)
                                (config parent_node)) parent_node)
        root_nodes
  end.

(** [not any(node.parent_id for node in workflow.nodes
             if node.id in (link.source_id, link.target_id))] *)
Definition top_level_link (workflow : WorkflowDefinitionSchema)
    (link : WorkflowLinkSchema) : bool :=
  negb (existsb (λ node, truthy (parent_id node))
          (List.filter
             (λ node, bool_decide (node_id node = source_id link)
                      || bool_decide (node_id node = target_id link))
             (nodes workflow))).

Definition _process_subworkflows (workflow : WorkflowDefinitionSchema)
  : WorkflowDefinitionSchema :=
  let groups := nodes_by_parent workflow in
  let root_nodes := default [] (group_get None groups) in
  {| nodes := foldl (attach_subworkflow workflow) root_nodes groups;
     links := List.filter (top_level_link workflow) (links workflow) |}.

(* ===================================================================== *)
(** ** Exceptions, node instances, recorder calls *)
(* ===================================================================== *)

(** The exception classes that occur in the module.  [NodeError] stands for
    any other exception a node or the factory raises.  All of them derive
    from [Exception]. *)
Inductive Exn : Type :=
| StopIteration
| RuntimeError (msg : string)
| KeyError (key : string)
| ValueError (msg : string)
| ValidationError
| AttributeError
| UpstreamFailure (msg : string)
| UnconnectedNode (msg : string)
| PauseException (paused_node : string) (output : option BaseNodeOutput)
| NodeError (tag : string).

Inductive Try (A : Type) : Type :=
| Return (a : A)
| Raise (e : Exn).
Arguments Return {A} a.
Arguments Raise {A} e.

(** A value of the input mapping handed to a node: the output object of a
    predecessor, or a plain value (a router's route output, a field of the
    run input). *)
Inductive InputValue : Type :=
| InOutput (o : BaseNodeOutput)
| InValue (v : PyVal).

(** A node instance as the executor uses it: awaiting it on an input
    mapping, and its [output_model] ([None] when the attribute is missing;
    [model_validate] answers [None] for a [ValidationError]). *)
Record BaseNode : Type := {
  call : gmap string InputValue → Try BaseNodeOutput;
  output_model : option (list (string * PyVal) → option BaseNodeOutput);
}.

Inductive TaskStatus : Type :=
  PENDING | RUNNING | COMPLETED | FAILED | PAUSED | CANCELED.

Inductive ErrorText : Type :=
| Upstream_failure              (* error="Upstream failure" *)
| format_exc (e : Exn).          (* error=traceback.format_exc(limit=5) *)

(** Calls received by the task recorder; of the keyword arguments of
    [update_task], [status], [outputs], [error] and
    [is_downstream_of_pause] are kept. *)
Inductive RecorderCall : Type :=
| create_task (nid : string)
| update_task (nid : string) (status : TaskStatus)
    (outputs : option (list (string * PyVal))) (error : option ErrorText)
    (is_downstream_of_pause : bool).

(** Why [NodeFactory.create_node] is called: from the precomputed-output
    loop of [run] (only [output_model] is used), from [run] for the input
    node, or from [_execute_node]. *)
Inductive FactoryUse : Type := SchemaOnly | InputSeed | Execution.

(** The observable history of an executor, oldest event first. *)
Inductive Event : Type :=
| Recorder (c : RecorderCall)
| Factory (nid : string) (use : FactoryUse)
| Invoke (nid : string) (use : FactoryUse) (node_input : gmap string InputValue)
| Warning (nid : string).

(** A precomputed output: a dict, or a list of dicts (loop nodes). *)
Inductive Precomputed : Type :=
| PrecomputedDict (d : list (string * PyVal))
| PrecomputedList (l : list (list (string * PyVal))).

(* ===================================================================== *)
(** ** Executor state *)
(* ===================================================================== *)

(** State of an [asyncio.Task] wrapping [_execute_node]: created but not
    yet started, started and suspended in an [await], or done with a result
    or an exception. *)
Inductive TaskState : Type :=
| Scheduled
| Running
| Done (r : Try (option BaseNodeOutput)).

(** The attributes of [WorkflowExecutor].  [_node_tasks] is the map,
    [_node_tasks_keys] its keys in insertion order.  [task_recorder] says
    whether a recorder was given; [history] collects what the executor did
    to its collaborators.  [node_instances] (written, never read) and
    [context] (used for the run record and the node context) are left
    out. *)
Record WorkflowExecutor : Type := {
  workflow : WorkflowDefinitionSchema;
  _initial_inputs : gmap string (gmap string PyVal);
  task_recorder : bool;
  _node_dict : gmap string WorkflowNodeSchema;
  _dependencies : gmap string (gset string);
  _outputs : gmap string (option BaseNodeOutput);
  _failed_nodes : gset string;
  _node_tasks : gmap string TaskState;
  _node_tasks_keys : list string;
  history : list Event;
}.

Definition set_initial_input (nid : string) (input : gmap string PyVal)
    (self : WorkflowExecutor) : WorkflowExecutor :=
  {| workflow := workflow self;
     _initial_inputs := <[nid := input]> (_initial_inputs self);
     task_recorder := task_recorder self; _node_dict := _node_dict self;
     _dependencies := _dependencies self; _outputs := _outputs self;
     _failed_nodes := _failed_nodes self; _node_tasks := _node_tasks self;
     _node_tasks_keys := _node_tasks_keys self; history := history self |}.

(** [self._outputs[nid] = output] *)
Definition set_output (nid : string) (output : option BaseNodeOutput)
    (self : WorkflowExecutor) : WorkflowExecutor :=
  {| workflow := workflow self; _initial_inputs := _initial_inputs self;
     task_recorder := task_recorder self; _node_dict := _node_dict self;
     _dependencies := _dependencies self;
     _outputs := <[nid := output]> (_outputs self);
     _failed_nodes := _failed_nodes self; _node_tasks := _node_tasks self;
     _node_tasks_keys := _node_tasks_keys self; history := history self |}.

(** [self._outputs.pop(nid, None)] *)
Definition pop_output (self : WorkflowExecutor) (nid : string)
  : WorkflowExecutor :=
  {| workflow := workflow self; _initial_inputs := _initial_inputs self;
     task_recorder := task_recorder self; _node_dict := _node_dict self;
     _dependencies := _dependencies self;
     _outputs := delete nid (_outputs self);
     _failed_nodes := _failed_nodes self; _node_tasks := _node_tasks self;
     _node_tasks_keys := _node_tasks_keys self; history := history self |}.

(** [self._failed_nodes.add(nid)] *)
Definition add_failed (nid : string) (self : WorkflowExecutor)
  : WorkflowExecutor :=
  {| workflow := workflow self; _initial_inputs := _initial_inputs self;
     task_recorder := task_recorder self; _node_dict := _node_dict self;
     _dependencies := _dependencies self; _outputs := _outputs self;
     _failed_nodes := _failed_nodes self ∪ {[nid]};
     _node_tasks := _node_tasks self;
     _node_tasks_keys := _node_tasks_keys self; history := history self |}.

(** [self._node_tasks[nid] = task] for a new key. *)
Definition add_task (nid : string) (self : WorkflowExecutor)
  : WorkflowExecutor :=
  {| workflow := workflow self; _initial_inputs := _initial_inputs self;
     task_recorder := task_recorder self; _node_dict := _node_dict self;
     _dependencies := _dependencies self; _outputs := _outputs self;
     _failed_nodes := _failed_nodes self;
     _node_tasks := <[nid := Scheduled]> (_node_tasks self);
     _node_tasks_keys := _node_tasks_keys self ++ [nid];
     history := history self |}.

(** The event loop moves an existing task to another state. *)
Definition set_task_state (nid : string) (s : TaskState)
    (self : WorkflowExecutor) : WorkflowExecutor :=
  {| workflow := workflow self; _initial_inputs := _initial_inputs self;
     task_recorder := task_recorder self; _node_dict := _node_dict self;
     _dependencies := _dependencies self; _outputs := _outputs self;
     _failed_nodes := _failed_nodes self;
     _node_tasks := <[nid := s]> (_node_tasks self);
     _node_tasks_keys := _node_tasks_keys self; history := history self |}.

Definition emit (e : Event) (self : WorkflowExecutor) : WorkflowExecutor :=
  {| workflow := workflow self; _initial_inputs := _initial_inputs self;
     task_recorder := task_recorder self; _node_dict := _node_dict self;
     _dependencies := _dependencies self; _outputs := _outputs self;
     _failed_nodes := _failed_nodes self; _node_tasks := _node_tasks self;
     _node_tasks_keys := _node_tasks_keys self;
     history := history self ++ [e] |}.

(** [if self.task_recorder: self.task_recorder.<call>] *)
Definition record (c : RecorderCall) (self : WorkflowExecutor)
  : WorkflowExecutor :=
  if task_recorder self then emit (Recorder c) self else self.

(* ===================================================================== *)
(** ** Constructor *)
(* ===================================================================== *)

Definition _build_node_dict (workflow : WorkflowDefinitionSchema)
  : gmap string WorkflowNodeSchema :=
  foldl (λ d node, <[node_id node := node]> d) ∅ (nodes workflow).

(** [dependencies[link.target_id].add(link.source_id)]: the subscript
    raises [KeyError] when the target is not the id of a node. *)
Definition add_dependency (acc : Try (gmap string (gset string)))
    (link : WorkflowLinkSchema) : Try (gmap string (gset string)) :=
  match acc with
  | Raise e => Raise e
  | Return dependencies =>
      match dependencies !! target_id link with
      | None => Raise (KeyError (target_id link))
      | Some s =>
          Return (<[target_id link := s ∪ {[source_id link]}]> dependencies)
      end
  end.

Definition _build_dependencies (workflow : WorkflowDefinitionSchema)
  : Try (gmap string (gset string)) :=
  foldl add_dependency
        (Return (foldl (λ d node, <[node_id node := ∅]> d) ∅ (nodes workflow)))
        (links workflow).

(** [WorkflowExecutor(workflow, initial_inputs, task_recorder)].  The two
    loops at the top of [__init__] fill [_node_dict] and [_dependencies],
    which [_build_node_dict] and [_build_dependencies] then replace. *)
Definition __init__ (workflow : WorkflowDefinitionSchema)
    (initial_inputs : gmap string (gmap string PyVal)) (task_recorder : bool)
  : Try WorkflowExecutor :=
  match _build_dependencies workflow with
  | Raise e => Raise e
  | Return dependencies =>
      Return {| workflow := workflow; _initial_inputs := initial_inputs;
                task_recorder := task_recorder;
                _node_dict := _build_node_dict workflow;
                _dependencies := dependencies; _outputs := ∅;
                _failed_nodes := ∅; _node_tasks := ∅;
                _node_tasks_keys := []; history := [] |}
  end.

(* ===================================================================== *)
(** ** Source handles and task handles *)
(* ===================================================================== *)

Definition missing_source_handle (src tgt : string) : Exn :=
  ValueError ("Missing source_handle in link from router node " +:+ src
              +:+ " to " +:+ tgt).

Definition add_source_handle (self : WorkflowExecutor)
    (acc : Try (gmap (string * string) string)) (link : WorkflowLinkSchema)
  : Try (gmap (string * string) string) :=
  match acc with
  | Raise e => Raise e
  | Return source_handles =>
      match _node_dict self !! source_id link with
      | None => Raise (KeyError (source_id link))
      | Some source_node =>
          if bool_decide (node_type source_node = "RouterNode") then
            match source_handle link with
            | Some h =>
                if truthy (Some h)
                then Return (<[(source_id link, target_id link) := h]> source_handles)
                else Raise (missing_source_handle (source_id link) (target_id link))
            | None =>
                Raise (missing_source_handle (source_id link) (target_id link))
            end
          else Return source_handles
      end
  end.

Definition _get_source_handles (self : WorkflowExecutor)
  : Try (gmap (string * string) string) :=
  foldl (add_source_handle self) (Return ∅) (links (workflow self)).

(** The handle of a node is identified with the node id; the function
    returns the executor, in which the handle exists. *)
Definition _get_async_task_for_node_execution (self : WorkflowExecutor)
    (nid : string) : WorkflowExecutor :=
  match _node_tasks self !! nid with
  | Some _ => self
  | None => record (create_task nid) (add_task nid self)
  end.

(* ===================================================================== *)
(** ** Node execution protocol ([_execute_node]) *)
(* ===================================================================== *)

Definition skipped_msg (nid : string) : string :=
  "Node " +:+ nid +:+ " skipped due to upstream failure".

(** The test of the pause-gating loop on one dependency:
    [output is not None and isinstance(output, HumanInterventionNodeOutput)]
    and [not output.resume_time and node_id in output.blocked_nodes],
    for [output = self._outputs.get(dep_id)]. *)
Definition paused_and_blocking (nid : string)
    (output : option (option BaseNodeOutput)) : bool :=
  match output with
  | Some (Some o) =>
      match human_intervention o with
      | Some h =>
          bool_decide (resume_time h = None)
          && bool_decide (nid ∈ blocked_nodes h)
      | None => false
      end
  | _ => false
  end.

Definition blocked_by_pause (self : WorkflowExecutor) (nid : string)
    (dependency_ids : list string) : bool :=
  existsb (λ dep_id, paused_and_blocking nid (_outputs self !! dep_id))
          dependency_ids.

Definition is_None {A : Type} (o : option A) : bool :=
  match o with None => true | Some _ => false end.

(** Outcome of the input-assembly loop: the mapping built, an early
    [return None] on a route that was not taken, or an exception. *)
Inductive Assembled : Type :=
| Inputs (node_input : gmap string (option InputValue))
| RouteNotTaken
| AssemblyError (e : Exn).

Fixpoint assemble_input (self : WorkflowExecutor)
    (source_handles : gmap (string * string) string) (nid : string)
    (pairs : list (string * option BaseNodeOutput))
    (node_input : gmap string (option InputValue)) : Assembled :=
  match pairs with
  | [] => Inputs node_input
  | (dep_id, output) :: pairs' =>
      match _node_dict self !! dep_id with
      | None => AssemblyError (KeyError dep_id)
      | Some predecessor_node =>
          if bool_decide (node_type predecessor_node = "RouterNode") then
            match source_handles !! (dep_id, nid) with
            | Some h =>
                if truthy (Some h) then
                  let route_output := getattr output h in
                  if is_not_None route_output
                  then assemble_input self source_handles nid pairs'
                         (<[dep_id := Some (InValue route_output)]> node_input)
                  else RouteNotTaken
                else AssemblyError (missing_source_handle dep_id nid)
            | None => AssemblyError (missing_source_handle dep_id nid)
            end
          else assemble_input self source_handles nid pairs'
                 (<[dep_id := InOutput <$> output]> node_input)
      end
  end.

(** The input node reads [self._initial_inputs.get(node_id, {})]; then
    [None] values are dropped from the mapping. *)
Definition final_input (self : WorkflowExecutor) (node : WorkflowNodeSchema)
    (nid : string) (assembled : gmap string (option InputValue))
  : gmap string InputValue :=
  if bool_decide (node_type node = "InputNode") then
    omap (λ v, if is_not_None v then Some (InValue v) else None)
         (default ∅ (_initial_inputs self !! nid))
  else omap id assembled.

Section Executor.
Variable isoformat : Z → string.
Variable str : PyVal → string.
(** [NodeFactory.create_node(node_name, node_type_name, config)] *)
Variable create_node :
  string → string → list (string * PyVal) → Try BaseNode.

(** From the recorder update with the inputs to the end of the inner
    [try]: empty-input check, instantiation, invocation. *)
Definition instantiate_and_invoke (self : WorkflowExecutor)
    (node : WorkflowNodeSchema) (nid : string)
    (node_input : gmap string InputValue)
  : WorkflowExecutor * Try (option BaseNodeOutput) :=
  let self := record (update_task nid RUNNING None None false) self in
  if bool_decide (node_input = ∅) then
    (set_output nid None self,
     Raise (UnconnectedNode ("Node " +:+ nid +:+ " has no input")))
  else
    let self := emit (Factory nid Execution) self in
    match create_node (title node) (node_type node) (config node) with
    | Raise e => (self, Raise e)
    | Return node_instance =>
        let self := record (update_task nid RUNNING None None false) self in
        let self := emit (Invoke nid Execution node_input) self in
        match call node_instance node_input with
        | Return output =>
            let self :=
              record (update_task nid COMPLETED
                        (_serialize_output isoformat str (Some output))
                        None false) self in
            (set_output nid (Some output) self, Return (Some output))
        | Raise (PauseException _ output) =>
            let self := set_output nid output self in
            let self :=
              record (update_task nid PAUSED
                        (_serialize_output isoformat str output)
                        None false) self in
            (self, Return output)
        | Raise e => (self, Raise e)
        end
    end.

(** The body of the outer [try] once the dependencies have been
    gathered without an exception. *)
Definition after_gather (self : WorkflowExecutor)
    (node : WorkflowNodeSchema) (nid : string)
    (dependency_ids : list string)
    (predecessor_outputs : list (option BaseNodeOutput))
  : WorkflowExecutor * Try (option BaseNodeOutput) :=
  if blocked_by_pause self nid dependency_ids then
    (record (update_task nid PENDING None None true) self, Return None)
  else if existsb (λ dep_id, bool_decide (dep_id ∈ _failed_nodes self))
                  dependency_ids then
    (add_failed nid self, Raise (UpstreamFailure (skipped_msg nid)))
  else if negb (bool_decide (node_type node = "CoalesceNode"))
          && existsb is_None predecessor_outputs then
    (record (update_task nid CANCELED None None false)
            (set_output nid None self), Return None)
  else
    match _get_source_handles self with
    | Raise e => (self, Raise e)
    | Return source_handles =>
        match assemble_input self source_handles nid
                (zip dependency_ids predecessor_outputs) ∅ with
        | AssemblyError e => (self, Raise e)
        | RouteNotTaken =>
            (record (update_task nid CANCELED None None false)
                    (set_output nid None self), Return None)
        | Inputs assembled =>
            instantiate_and_invoke self node nid
              (final_input self node nid assembled)
        end
    end.

(** The two [except] clauses of the outer [try]. *)
Definition handlers (nid : string)
    (r : WorkflowExecutor * Try (option BaseNodeOutput))
  : WorkflowExecutor * Try (option BaseNodeOutput) :=
  match r with
  | (self, Return output) => (self, Return output)
  | (self, Raise (UpstreamFailure msg)) =>
      (record (update_task nid CANCELED None (Some Upstream_failure) false)
              (set_output nid None (add_failed nid self)),
       Raise (UpstreamFailure msg))
  | (self, Raise e) =>
      (record (update_task nid FAILED None (Some (format_exc e)) false)
              (add_failed nid self),
       Raise e)
  end.

(** What awaiting a task gives: its result or exception, or nothing,
    ever, when the task waits for itself through a cycle. *)
Inductive Awaited : Type :=
| Finished (r : Try (option BaseNodeOutput))
| NeverFinishes.

(** [await asyncio.gather] on several tasks, without [return_exceptions]: an
    exception of any task is raised to the awaiter; otherwise the
    awaiter resumes when all tasks have returned. *)
Inductive Gathered : Type :=
| GatherReturn (outputs : list (option BaseNodeOutput))
| GatherRaise (e : Exn)
| GatherNever.

Fixpoint first_exception (rs : list Awaited) : option Exn :=
  match rs with
  | [] => None
  | Finished (Raise e) :: _ => Some e
  | _ :: rs' => first_exception rs'
  end.

Fixpoint all_returned (rs : list Awaited)
  : option (list (option BaseNodeOutput)) :=
  match rs with
  | [] => Some []
  | Finished (Return o) :: rs' => cons o <$> all_returned rs'
  | _ :: _ => None
  end.

Definition gather (rs : list Awaited) : Gathered :=
  match first_exception rs with
  | Some e => GatherRaise e
  | None =>
      match all_returned rs with
      | Some outputs => GatherReturn outputs
      | None => GatherNever
      end
  end.

Section Tasks.
(** How the event loop brings one task to completion. *)
Variable await : WorkflowExecutor → string → option (WorkflowExecutor * Awaited).

Fixpoint await_each (self : WorkflowExecutor) (nids : list string)
  : option (WorkflowExecutor * list Awaited) :=
  match nids with
  | [] => Some (self, [])
  | nid :: nids' =>
      '(self, r) ← await self nid;
      '(self, rs) ← await_each self nids';
      Some (self, r :: rs)
  end.

Definition finish (r : WorkflowExecutor * Try (option BaseNodeOutput))
  : option (WorkflowExecutor * Awaited) :=
  Some (r.1, Finished r.2).

Definition _execute_node_with (self : WorkflowExecutor) (nid : string)
  : option (WorkflowExecutor * Awaited) :=
  match _node_dict self !! nid with
  | None => Some (self, Finished (Raise (KeyError nid)))
  | Some node =>
      match _outputs self !! nid with
      | Some output => Some (self, Finished (Return output))
      | None =>
          let dependency_ids :=
            elements (default ∅ (_dependencies self !! nid)) in
          match dependency_ids with
          | [] => finish (handlers nid (after_gather self node nid [] []))
          | _ =>
              let self :=
                foldl _get_async_task_for_node_execution self
                      dependency_ids in
              '(self, rs) ← await_each self dependency_ids;
              match gather rs with
              | GatherRaise _ =>
                  finish (handlers nid
                            (self, Raise (UpstreamFailure (skipped_msg nid))))
              | GatherNever => Some (self, NeverFinishes)
              | GatherReturn predecessor_outputs =>
                  finish (handlers nid
                            (after_gather self node nid dependency_ids
                               predecessor_outputs))
              end
          end
      end
  end.
End Tasks.

(** Driving the task of [nid] to completion.  The recursion depth is
    bounded by [fuel]; [None] means the bound was too small. *)
Fixpoint await_task (fuel : nat) (self : WorkflowExecutor) (nid : string)
  : option (WorkflowExecutor * Awaited) :=
  match fuel with
  | 0 => None
  | S fuel' =>
      match _node_tasks self !! nid with
      | Some (Done r) => Some (self, Finished r)
      | Some Running | None => Some (self, NeverFinishes)
      | Some Scheduled =>
          '(self, r) ← _execute_node_with (await_task fuel')
                         (set_task_state nid Running self) nid;
          match r with
          | Finished r =>
              Some (set_task_state nid (Done r) self, Finished r)
          | NeverFinishes => Some (self, NeverFinishes)
          end
      end
  end.

Definition _execute_node (fuel : nat) :=
  _execute_node_with (await_task fuel).
(* ------------------------------------------------------------------- *)
(** *** The driver ([run]) *)
(* ------------------------------------------------------------------- *)

(** The exceptions the precomputed-output loop catches. *)
Definition caught_in_precomputed_loop (e : Exn) : bool :=
  match e with
  | ValidationError | AttributeError | KeyError _ => true
  | _ => false
  end.

(** One round of the loop over [precomputed_outputs.items()]: the
    executor afterwards, and the exception that escapes, if any. *)
Definition use_precomputed (self : WorkflowExecutor) (nid : string)
    (output : Precomputed) : WorkflowExecutor * Try unit :=
  match output with
  | PrecomputedList _ => (self, Return ())
  | PrecomputedDict d =>
      match _node_dict self !! nid with
      | None => (emit (Warning nid) self, Return ())
      | Some node =>
          let self := emit (Factory nid SchemaOnly) self in
          match create_node (title node) (node_type node) (config node) with
          | Raise e =>
              if caught_in_precomputed_loop e
              then (emit (Warning nid) self, Return ())
              else (self, Raise e)
          | Return node_instance =>
              match output_model node_instance with
              | None => (emit (Warning nid) self, Return ())
              | Some model_validate =>
                  match model_validate d with
                  | None => (emit (Warning nid) self, Return ())
                  | Some output => (set_output nid (Some output) self, Return ())
                  end
              end
          end
      end
  end.

Fixpoint precomputed_loop (self : WorkflowExecutor)
    (items : list (string * Precomputed)) : WorkflowExecutor * Try unit :=
  match items with
  | [] => (self, Return ())
  | (nid, output) :: items' =>
      match use_precomputed self nid output with
      | (self, Return _) => precomputed_loop self items'
      | (self, Raise e) => (self, Raise e)
      end
  end.

(** [node.node_type == "InputNode" and not node.parent_id] *)
Definition is_top_level_input (node : WorkflowNodeSchema) : bool :=
  bool_decide (node_type node = "InputNode") && negb (truthy (parent_id node)).

(** [nodes_to_run]: all keys of [_node_dict], or [set(node_ids)] when
    [node_ids] is not empty; then the nodes with a parent are
    discarded. *)
Definition nodes_to_run (self : WorkflowExecutor) (node_ids : list string)
  : gset string :=
  foldl (λ (s : gset string) node,
           if truthy (parent_id node) then s ∖ {[node_id node]} else s)
        (match node_ids with
         | [] => dom (_node_dict self)
         | _ => list_to_set node_ids
         end)
        (nodes (workflow self)).

(** The [while] loop of the sweep that looks for [paused_node_id] among
    the dependencies of [current_node], then moves to
    [next(iter(deps))].  [None]: not finished within [fuel] rounds. *)
Fixpoint downstream_walk (fuel : nat)
    (dependencies : gmap string (gset string))
    (paused_node_id current_node : string) : option bool :=
  match fuel with
  | 0 => None
  | S fuel' =>
      match dependencies !! current_node with
      | None => Some false
      | Some deps =>
          if bool_decide (paused_node_id ∈ deps) then Some true
          else match elements deps with
               | [] => Some false
               | next :: _ =>
                   downstream_walk fuel' dependencies paused_node_id next
               end
      end
  end.

(** Every round of the loop is at a key of [_dependencies] and the next
    round is determined by the current one, so a walk that has not
    stopped after as many rounds as there are keys is at a key for the
    second time and never stops. *)
Definition is_downstream (self : WorkflowExecutor)
    (paused_node_id nid : string) : option bool :=
  downstream_walk (S (size (_dependencies self))) (_dependencies self)
                  paused_node_id nid.

(** The loop over [zip(self._node_tasks.keys(), results)].  [None]: the
    downstream walk never stops. *)
Fixpoint sweep (self : WorkflowExecutor) (paused_node_id : option string)
    (pairs : list (string * Try (option BaseNodeOutput)))
  : option (WorkflowExecutor * option string) :=
  match pairs with
  | [] => Some (self, paused_node_id)
  | (nid, Return _) :: pairs' => sweep self paused_node_id pairs'
  | (nid, Raise (PauseException paused _)) :: pairs' =>
      sweep self (Some paused) pairs'
  | (nid, Raise _) :: pairs' =>
      let failed := set_output nid None (add_failed nid self) in
      match paused_node_id with
      | Some paused =>
          if truthy paused_node_id && task_recorder self then
            match is_downstream self paused nid with
            | None => None
            | Some true =>
                sweep (emit (Recorder (update_task nid PENDING None None true))
                            self)
                      paused_node_id pairs'
            | Some false => sweep failed paused_node_id pairs'
            end
          else sweep failed paused_node_id pairs'
      | None => sweep failed paused_node_id pairs'
      end
  end.

(** The final loop: the first [PauseException] among the results whose
    [node_id] is [paused_node_id]. *)
Definition pause_to_raise (paused_node_id : option string)
    (results : list (Try (option BaseNodeOutput))) : option Exn :=
  match paused_node_id with
  | Some paused =>
      if truthy paused_node_id then
        head (omap (λ r, match r with
                         | Raise (PauseException p o) =>
                             if bool_decide (p = paused)
                             then Some (PauseException p o) else None
                         | _ => None
                         end) results)
      else None
  | None => None
  end.

(** [asyncio.gather] with [return_exceptions=True] resumes once every
    task is done. *)
Fixpoint all_finished (rs : list Awaited)
  : option (list (Try (option BaseNodeOutput))) :=
  match rs with
  | [] => Some []
  | Finished r :: rs' => cons r <$> all_finished rs'
  | NeverFinishes :: _ => None
  end.

Inductive RunResult : Type :=
| RunReturn (outputs : gmap string BaseNodeOutput)
| RunRaise (e : Exn)
| RunNever.

(** From "Process results to handle any exceptions" to the end of
    [run]. *)
Definition sweep_and_return (self : WorkflowExecutor)
    (results : list (Try (option BaseNodeOutput)))
  : WorkflowExecutor * RunResult :=
  match sweep self None (zip (_node_tasks_keys self) results) with
  | None => (self, RunNever)
  | Some (self, paused_node_id) =>
      match pause_to_raise paused_node_id results with
      | Some e => (self, RunRaise e)
      | None => (self, RunReturn (omap id (_outputs self)))
      end
  end.

(** The statements of [run] in order. *)
Definition run_body (fuel : nat) (self : WorkflowExecutor)
    (input : gmap string PyVal) (node_ids : list string)
    (precomputed_outputs : gmap string Precomputed)
  : option (WorkflowExecutor * RunResult) :=
  match precomputed_loop self (map_to_list precomputed_outputs) with
  | (self, Raise e) => Some (self, RunRaise e)
  | (self, Return _) =>
      match List.find is_top_level_input (nodes (workflow self)) with
      | None => Some (self, RunRaise StopIteration)
      | Some input_node =>
          let self := set_initial_input (node_id input_node) input self in
          let self := emit (Factory (node_id input_node) InputSeed) self in
          match create_node (title input_node) (node_type input_node)
                  (config input_node) with
          | Raise e => Some (self, RunRaise e)
          | Return input_node_obj =>
              let node_input := InValue <$> input in
              let self :=
                emit (Invoke (node_id input_node) InputSeed node_input) self in
              match call input_node_obj node_input with
              | Raise e => Some (self, RunRaise e)
              | Return output =>
                  let self :=
                    set_output (node_id input_node) (Some output) self in
                  let to_run := elements (nodes_to_run self node_ids) in
                  let self := foldl pop_output self to_run in
                  let self :=
                    foldl _get_async_task_for_node_execution self to_run in
                  '(self, rs) ← await_each (await_task fuel) self
                                  (_node_tasks_keys self);
                  match all_finished rs with
                  | None => Some (self, RunNever)
                  | Some results => Some (sweep_and_return self results)
                  end
              end
          end
      end
  end.

(** [run] is a coroutine function: a [StopIteration] that leaves its
    body reaches the awaiting caller as
    [RuntimeError("coroutine raised StopIteration")] (PEP 479). *)
Definition run (fuel : nat) (self : WorkflowExecutor)
    (input : gmap string PyVal) (node_ids : list string)
    (precomputed_outputs : gmap string Precomputed)
  : option (WorkflowExecutor * RunResult) :=
  match run_body fuel self input node_ids precomputed_outputs with
  | Some (self, RunRaise StopIteration) =>
      Some (self, RunRaise (RuntimeError "coroutine raised StopIteration"))
  | r => r
  end.
End Executor.

(* ===================================================================== *)
(** ** Reading the history *)
(* ===================================================================== *)

Global Instance FactoryUse_eq_dec : EqDecision FactoryUse.
Proof. solve_decision. Defined.

Global Instance TaskStatus_eq_dec : EqDecision TaskStatus.
Proof. solve_decision. Defined.

(** [task_recorder.create_task(nid, {})] *)
Definition is_create_task (nid : string) (e : Event) : bool :=
  match e with
  | Recorder (create_task n) => bool_decide (n = nid)
  | _ => false
  end.

(** [NodeFactory.create_node] called for [nid] for the given use. *)
Definition is_instantiation (use : FactoryUse) (nid : string) (e : Event)
  : bool :=
  match e with
  | Factory n u => bool_decide (n = nid) && bool_decide (u = use)
  | _ => false
  end.

(** The instance of [nid] awaited for the given use. *)
Definition is_invocation (use : FactoryUse) (nid : string) (e : Event) : bool :=
  match e with
  | Invoke n u _ => bool_decide (n = nid) && bool_decide (u = use)
  | _ => false
  end.

Definition count_events (p : Event → bool) (h : list Event) : nat :=
  length (List.filter p h).

(** The statuses recorded for [nid], with [is_downstream_of_pause]. *)
Definition statuses_of (nid : string) (h : list Event)
  : list (TaskStatus * bool) :=
  omap (λ e, match e with
             | Recorder (update_task n s _ _ d) =>
                 if bool_decide (n = nid) then Some (s, d) else None
             | _ => None
             end) h.

(** The input mappings [nid] was invoked on from [_execute_node]. *)
Definition inputs_of (nid : string) (h : list Event)
  : list (gmap string InputValue) :=
  omap (λ e, match e with
             | Invoke n Execution i =>
                 if bool_decide (n = nid) then Some i else None
             | _ => None
             end) h.

Definition is_pause (e : Exn) : bool :=
  match e with PauseException _ _ => true | _ => false end.

Definition raises_pause {A : Type} (r : Try A) : bool :=
  match r with Raise e => is_pause e | Return _ => false end.

(** The children of [p] as [_process_subworkflows] collects them: the
    nodes whose [parent_id] is [p], in order, each copied with its
    [parent_id] cleared. *)
Definition in_group (p : option string) (ns : list WorkflowNodeSchema)
  : list WorkflowNodeSchema :=
  map clear_parent (List.filter (λ n, bool_decide (parent_id n = p)) ns).

Definition children_of (workflow : WorkflowDefinitionSchema)
    (p : option string) : list WorkflowNodeSchema :=
  in_group p (nodes workflow).

(** The subworkflow that hoisting stores for the parent [pid]. *)
Definition subworkflow_of (workflow : WorkflowDefinitionSchema)
    (pid : string) : WorkflowDefinitionSchema :=
  {| nodes := children_of workflow (Some pid);
     links := subworkflow_links workflow (children_of workflow (Some pid)) |}.


(** The links of the subworkflow found under ["subworkflow"] in a node's
    config, as dumped. *)
Definition stored_subworkflow_links (n : WorkflowNodeSchema) : list PyVal :=
  match dict_get "subworkflow" (config n) with
  | Some (PDict [(PStr "nodes", _); (PStr "links", PList ls)]) => ls
  | _ => []
  end.

(** What makes [_get_source_handles] raise at a link: its source is not a
    key of [_node_dict], or is a router while the handle is missing or
    empty. *)
Definition link_is_rejected (self : WorkflowExecutor)
    (link : WorkflowLinkSchema) : Prop :=
  match _node_dict self !! source_id link with
  | None => True
  | Some source_node =>
      node_type source_node = "RouterNode" ∧ truthy (source_handle link) = false
  end.

(** The input mapping assembled from predecessors none of which is a
    router: every pair of [zip dependency_ids predecessor_outputs] is
    stored, then the [None] values are dropped. *)
Definition non_null_inputs (dependency_ids : list string)
    (predecessor_outputs : list (option BaseNodeOutput))
  : gmap string InputValue :=
  omap id (foldl (λ (m : gmap string (option InputValue)) p,
                    <[p.1 := InOutput <$> p.2]> m)
                 ∅ (zip dependency_ids predecessor_outputs)).

(** A router output selects the handle [h]: the value at [h] is the sole
    non-null one. *)
Definition selects (output : BaseNodeOutput) (h : string) : Prop :=
  ∀ k, is_not_None (getattr (Some output) k) = true ↔ k = h.

(** The nodes the downstream walk can reach [paused] from: [paused] is a
    dependency of the node, or the walk moves to the first dependency and
    reaches it from there. *)
Inductive on_first_chain (dependencies : gmap string (gset string))
    (paused : string) : string → Prop :=
| chain_here current deps :
    dependencies !! current = Some deps → paused ∈ deps →
    on_first_chain dependencies paused current
| chain_next current deps next rest :
    dependencies !! current = Some deps → paused ∉ deps →
    elements deps = next :: rest →
    on_first_chain dependencies paused next →
    on_first_chain dependencies paused current.

(** The events of the run before any task is started: factory calls for
    schema validation and warnings about skipped precomputed outputs. *)
Definition is_schema_event (e : Event) : bool :=
  match e with
  | Factory _ SchemaOnly | Warning _ => true
  | _ => false
  end.

(** The task of [nid] has begun to run. *)
Definition started (self : WorkflowExecutor) (nid : string) : bool :=
  match _node_tasks self !! nid with
  | Some Running | Some (Done _) => true
  | _ => false
  end.

(** [touches nid k s s']: [s'] is [s] after some of the writes the body
    of [_execute_node nid] makes: to [_outputs[nid]], to [_failed_nodes]
    with [nid], to the recorder about [nid], and [k] calls of the factory
    and any number of invocations for [nid]. *)
Inductive touches (nid : string)
  : nat → WorkflowExecutor → WorkflowExecutor → Prop :=
| touches_nothing s : touches nid 0 s s
| touches_output k s s' o :
    touches nid k s s' → touches nid k s (set_output nid o s')
| touches_failed k s s' :
    touches nid k s s' → touches nid k s (add_failed nid s')
| touches_record k s s' status outputs error flag :
    touches nid k s s' →
    touches nid k s (record (update_task nid status outputs error flag) s')
| touches_factory k s s' :
    touches nid k s s' → touches nid (S k) s (emit (Factory nid Execution) s')
| touches_invoke k s s' node_input :
    touches nid k s s' →
    touches nid k s (emit (Invoke nid Execution node_input) s').

(** How often [nid] occurs among the keys of [_node_tasks], that is, how
    many handles were created for it. *)
Definition handles_of (nid : string) (self : WorkflowExecutor) : nat :=
  length (List.filter (λ k, bool_decide (k = nid)) (_node_tasks_keys self)).

(** What is left for [nid]: one handle (with its [create_task] call) as
    long as [_node_tasks] has no entry for it, one instantiation as long
    as its task has not started. *)
Definition handle_budget (nid : string) (self : WorkflowExecutor) : nat :=
  match _node_tasks self !! nid with Some _ => 0 | None => 1 end.

Definition instance_budget (nid : string) (self : WorkflowExecutor) : nat :=
  if started self nid then 0 else 1.

(** [within_budget nid d s s']: going from [s] to [s'], the calls
    [create_task(nid)], the handles and the instantiations of [nid] by
    [_execute_node] are paid from the budgets, and the factory was called
    at most [d] times for [nid] as input node. *)
Definition within_budget (nid : string) (d : nat) (s s' : WorkflowExecutor)
  : Prop :=
  (count_events (is_create_task nid) (history s') + handle_budget nid s'
   ≤ count_events (is_create_task nid) (history s) + handle_budget nid s)%nat
  ∧ (handles_of nid s' + handle_budget nid s'
     ≤ handles_of nid s + handle_budget nid s)%nat
  ∧ (count_events (is_instantiation Execution nid) (history s')
       + instance_budget nid s'
     ≤ count_events (is_instantiation Execution nid) (history s)
       + instance_budget nid s)%nat
  ∧ (count_events (is_instantiation InputSeed nid) (history s')
     ≤ count_events (is_instantiation InputSeed nid) (history s) + d)%nat.

(** The precomputed output [v] of [M] is in place: it is in [_outputs],
    [M] is a known node, and the task of [M], if it is done, has returned
    [v] (it is never left running: it returns at the memoisation test). *)
Definition keeps_precomputed (M : string) (node : WorkflowNodeSchema)
    (v : BaseNodeOutput) (s : WorkflowExecutor) : Prop :=
  _outputs s !! M = Some (Some v)
  ∧ _node_dict s !! M = Some node
  ∧ _node_tasks s !! M ≠ Some Running
  ∧ ∀ x, _node_tasks s !! M = Some (Done x) → x = Return (Some v).

(** From [s] to [s'] the precomputed output stays in place and [M] is
    neither instantiated nor invoked by [_execute_node]. *)
Definition skips_precomputed (M : string) (node : WorkflowNodeSchema)
    (v : BaseNodeOutput) (s s' : WorkflowExecutor) : Prop :=
  keeps_precomputed M node v s →
  keeps_precomputed M node v s'
  ∧ count_events (is_instantiation Execution M) (history s')
    = count_events (is_instantiation Execution M) (history s)
  ∧ inputs_of M (history s') = inputs_of M (history s).

(** Tasks are only added, and a task that is done stays as it is. *)
Definition tasks_grow (s s' : WorkflowExecutor) : Prop :=
  (∃ more, _node_tasks_keys s' = _node_tasks_keys s ++ more)
  ∧ ∀ k x, _node_tasks s !! k = Some (Done x) →
           _node_tasks s' !! k = Some (Done x).

(** [n] is a dependency of some node. *)
Definition is_dependency (s : WorkflowExecutor) (n : string) : Prop :=
  ∃ nid deps, _dependencies s !! nid = Some deps ∧ n ∈ deps.

(** The ids that occur as a dependency of some node. *)
Definition dependency_ids (s : WorkflowExecutor) : gset string :=
  ⋃ (map_to_list (_dependencies s)).*2.

(** Every task and every dependency is one of [candidates]. *)
Definition within (candidates : gset string) (s : WorkflowExecutor) : Prop :=
  dom (_node_tasks s) ⊆ candidates ∧ dependency_ids s ⊆ candidates.

(** The candidates whose task has not begun to run. *)
Definition waiting (candidates : gset string) (s : WorkflowExecutor)
  : gset string :=
  filter (λ n, started s n = false) candidates.

(** From [s] to [s'] no task leaves [candidates], the dependencies stay
    and a task that has begun to run is not reset. *)
Definition progresses (candidates : gset string)
    (s s' : WorkflowExecutor) : Prop :=
  within candidates s →
  within candidates s'
  ∧ _dependencies s' = _dependencies s
  ∧ ∀ n, started s n = true → started s' n = true.

(** The ids a run may create a task for. *)
Definition candidates_of (self : WorkflowExecutor) (node_ids : list string)
  : gset string :=
  dom (_node_tasks self) ∪ dependency_ids self
  ∪ dom (_node_dict self) ∪ list_to_set node_ids.

(* ===================================================================== *)
(** ** Reading values *)
(* ===================================================================== *)

Definition is_datetime (v : PyVal) : bool :=
  match v with PDatetime _ => true | _ => false end.

Definition is_set (v : PyVal) : bool :=
  match v with PSet _ => true | _ => false end.

(** Some value that satisfies [p] is [v] itself or is reached from [v]
    through values of dictionaries and items of lists, the two containers
    the serializer walks. *)
Fixpoint reaches (p : PyVal → bool) (v : PyVal) : bool :=
  p v
  || match v with
     | PDict items =>
         existsb (λ kv : PyVal * PyVal,
                    match kv with (_, value) => reaches p value end) items
     | PList items => existsb (reaches p) items
     | _ => false
     end.
(* ===================================================================== *)
(** ** A small node library and workflows to run *)
(* ===================================================================== *)

Module Scenarios.

Definition iso (t : Z) : string := "2024-01-01T00:00:00".
Definition key_str (k : PyVal) : string :=
  match k with PStr s => s | _ => "?" end.

Definition out (fs : list (string * PyVal)) : BaseNodeOutput :=
  {| fields := fs; human_intervention := None |}.

Definition plain (v : InputValue) : PyVal :=
  match v with
  | InValue v => v
  | InOutput o => PDict (model_dump o)
  end.

Definition strings_of (v : option PyVal) : list string :=
  match v with
  | Some (PList l) =>
      omap (λ x, match x with PStr s => Some s | _ => None end) l
  | _ => []
  end.

(** [model_validate] of the test nodes: a dict with a key ["bad"] is
    rejected. *)
Definition validate (d : list (string * PyVal)) : option BaseNodeOutput :=
  match dict_get "bad" d with
  | Some _ => None
  | None => Some (out d)
  end.

(** The factory: an input node echoes its input, ["ConstNode"] and
    ["RouterNode"] answer their config, ["CoalesceNode"] and ["Node"]
    answer what they received, ["FailNode"] raises,
    ["HumanInterventionNode"] pauses the nodes listed in its config
    (its title is its id).  Other types are not registered. *)
Definition factory (node_name node_type_name : string)
    (cfg : list (string * PyVal)) : Try BaseNode :=
  let received (node_input : gmap string InputValue) :=
    Return (out (map (λ kv, (kv.1, plain kv.2)) (map_to_list node_input))) in
  if bool_decide (node_type_name = "InputNode") then
    Return {| call := received; output_model := Some validate |}
  else if bool_decide (node_type_name = "Node") then
    Return {| call := received; output_model := Some validate |}
  else if bool_decide (node_type_name = "CoalesceNode") then
    Return {| call := received; output_model := Some validate |}
  else if bool_decide (node_type_name = "ConstNode") then
    Return {| call := λ _, Return (out cfg); output_model := Some validate |}
  else if bool_decide (node_type_name = "RouterNode") then
    Return {| call := λ _, Return (out cfg); output_model := Some validate |}
  else if bool_decide (node_type_name = "FailNode") then
    Return {| call := λ _, Raise (NodeError "boom"); output_model := None |}
  else if bool_decide (node_type_name = "HumanInterventionNode") then
    let output :=
      {| fields := cfg;
         human_intervention :=
           Some {| resume_time := None;
                   blocked_nodes := strings_of (dict_get "blocked" cfg) |} |} in
    Return {| call := λ _, Raise (PauseException node_name (Some output));
              output_model := Some validate |}
  else Raise (ValueError "node type is not registered").

Definition node (nid type : string) : WorkflowNodeSchema :=
  {| node_id := nid; title := nid; node_type := type; config := [];
     parent_id := None |}.

Definition node_with (nid type : string) (cfg : list (string * PyVal))
  : WorkflowNodeSchema :=
  {| node_id := nid; title := nid; node_type := type; config := cfg;
     parent_id := None |}.

Definition child (nid type parent : string) : WorkflowNodeSchema :=
  {| node_id := nid; title := nid; node_type := type; config := [];
     parent_id := Some parent |}.

Definition link (src tgt : string) : WorkflowLinkSchema :=
  {| source_id := src; target_id := tgt; source_handle := None |}.

Definition route (src h tgt : string) : WorkflowLinkSchema :=
  {| source_id := src; target_id := tgt; source_handle := Some h |}.

Definition question : gmap string PyVal :=
  {[ "question" := PStr "Is altruism inherently selfish?" ]}.

(** A fresh executor with a recorder; a placeholder when the
    constructor raises. *)
Definition executor (workflow : WorkflowDefinitionSchema) : WorkflowExecutor :=
  match __init__ workflow ∅ true with
  | Return self => self
  | Raise _ =>
      {| workflow := workflow; _initial_inputs := ∅; task_recorder := true;
         _node_dict := ∅; _dependencies := ∅; _outputs := ∅;
         _failed_nodes := ∅; _node_tasks := ∅; _node_tasks_keys := [];
         history := [] |}
  end.

Definition run_on (workflow : WorkflowDefinitionSchema)
    (node_ids : list string) (precomputed : gmap string Precomputed)
  : option (WorkflowExecutor * RunResult) :=
  run iso key_str factory 10 (executor workflow) question node_ids precomputed.

(** input -> a -> b *)
Definition linear : WorkflowDefinitionSchema :=
  {| nodes := [node "input" "InputNode"; node "a" "Node"; node "b" "Node"];
     links := [link "input" "a"; link "a" "b"] |}.

(** A loop node with two children, one of which has children of its
    own. *)
Definition nested : WorkflowDefinitionSchema :=
  {| nodes := [node "input" "InputNode"; node "loop" "Node";
               child "c1" "Node" "loop"; child "c2" "Node" "loop";
               child "g1" "Node" "c1"; child "g2" "Node" "c1"];
     links := [link "input" "loop"; link "c1" "c2"; link "g1" "g2"] |}.

(** input -> router -> c, the link out of the router without a
    [source_handle]. *)
Definition router_without_handle : WorkflowDefinitionSchema :=
  {| nodes := [node "input" "InputNode";
               node_with "r" "RouterNode" [("yes", PStr "go")];
               node "c" "Node"];
     links := [link "input" "r"; link "r" "c"] |}.

(** A link whose source is not a node. *)
Definition dangling_source : WorkflowDefinitionSchema :=
  {| nodes := [node "input" "InputNode"; node "a" "Node"];
     links := [link "ghost" "a"] |}.

(** input -> h (human intervention, blocks [d]) -> d, and input -> s. *)
Definition paused_branch : WorkflowDefinitionSchema :=
  {| nodes := [node "input" "InputNode";
               node_with "h" "HumanInterventionNode"
                 [("blocked", PList [PStr "d"])];
               node "d" "Node"; node "s" "Node"];
     links := [link "input" "h"; link "h" "d"; link "input" "s"] |}.

(** input -> f (fails) -> d, and input -> s. *)
Definition failing_branch : WorkflowDefinitionSchema :=
  {| nodes := [node "input" "InputNode"; node "f" "FailNode";
               node "d" "Node"; node "s" "Node"];
     links := [link "input" "f"; link "f" "d"; link "input" "s"] |}.

(** A router taking the route [yes]. *)
Definition router : WorkflowNodeSchema :=
  node_with "r" "RouterNode" [("yes", PStr "go"); ("no", PNone)].

(** input -> r; r -no-> x; input -> h (blocks [n]); h -> n; x -> n. *)
Definition null_and_pause : WorkflowDefinitionSchema :=
  {| nodes := [node "input" "InputNode"; router; node "x" "Node";
               node_with "h" "HumanInterventionNode"
                 [("blocked", PList [PStr "n"])];
               node "n" "Node"];
     links := [link "input" "r"; route "r" "no" "x"; link "input" "h";
               link "h" "n"; link "x" "n"] |}.

(** input -> r; r -yes-> a; r -no-> b; a -> c; b -> c, with [c] a
    coalesce node. *)
Definition fan_in : WorkflowDefinitionSchema :=
  {| nodes := [node "input" "InputNode"; router; node "a" "Node";
               node "b" "Node"; node "c" "CoalesceNode"];
     links := [link "input" "r"; route "r" "yes" "a"; route "r" "no" "b";
               link "a" "c"; link "b" "c"] |}.

(** x -> n, in an executor where the task of [x] is done and has
    returned [None]. *)
Definition after_null : WorkflowExecutor :=
  set_task_state "x" (Done (Return None))
    (add_task "x"
       (executor {| nodes := [node "x" "Node"; node "n" "Node"];
                    links := [link "x" "n"] |})).

(** input -> r; r -yes-> c; r -no-> x; x -> c. *)
Definition route_and_null : WorkflowDefinitionSchema :=
  {| nodes := [node "input" "InputNode"; router; node "x" "Node";
               node "c" "Node"];
     links := [link "input" "r"; route "r" "yes" "c"; route "r" "no" "x";
               link "x" "c"] |}.

Definition router_output : BaseNodeOutput :=
  out [("yes", PStr "go"); ("no", PNone)].

(** r -yes-> c, in an executor where the task of [r] is done. *)
Definition after_router : WorkflowExecutor :=
  set_output "r" (Some router_output)
    (set_task_state "r" (Done (Return (Some router_output)))
       (add_task "r"
          (executor {| nodes := [router; node "c" "Node"];
                       links := [route "r" "yes" "c"] |}))).

Definition pause_output (blocked : list string) : BaseNodeOutput :=
  {| fields := [];
     human_intervention :=
       Some {| resume_time := None; blocked_nodes := blocked |} |}.

(** h -> d, in an executor where [h] has paused and blocks [d]. *)
Definition after_pause : WorkflowExecutor :=
  set_output "h" (Some (pause_output ["d"]))
    (set_task_state "h" (Done (Return (Some (pause_output ["d"]))))
       (add_task "h"
          (executor {| nodes := [node "h" "HumanInterventionNode";
                                 node "d" "Node"];
                       links := [link "h" "d"] |}))).

(** input -> h -> m -> n, where [h] blocks [n] only. *)
Definition blocked_grandchild : WorkflowDefinitionSchema :=
  {| nodes := [node "input" "InputNode";
               node_with "h" "HumanInterventionNode"
                 [("blocked", PList [PStr "n"])];
               node "m" "Node"; node "n" "Node"];
     links := [link "input" "h"; link "h" "m"; link "m" "n"] |}.

(** input -> h (blocks [n]) -> n and input -> f (fails) -> n. *)
Definition blocked_and_failed : WorkflowDefinitionSchema :=
  {| nodes := [node "input" "InputNode";
               node_with "h" "HumanInterventionNode"
                 [("blocked", PList [PStr "n"])];
               node "f" "FailNode"; node "n" "Node"];
     links := [link "input" "h"; link "input" "f"; link "h" "n";
               link "f" "n"] |}.

(** p -> b -> n and a -> n. *)
Definition two_branches : WorkflowDefinitionSchema :=
  {| nodes := [node "p" "Node"; node "a" "Node"; node "b" "Node";
               node "n" "Node"];
     links := [link "p" "b"; link "a" "n"; link "b" "n"] |}.

(** p -> a -> n and b -> n: the same with the branches exchanged. *)
Definition two_branches_mirrored : WorkflowDefinitionSchema :=
  {| nodes := [node "p" "Node"; node "a" "Node"; node "b" "Node";
               node "n" "Node"];
     links := [link "p" "a"; link "a" "n"; link "b" "n"] |}.

(** A workflow without an input node. *)
Definition no_input : WorkflowDefinitionSchema :=
  {| nodes := [node "a" "Node"; node "u" "UnknownNode"];
     links := [link "a" "u"] |}.

(** The input node has the empty string as [parent_id]. *)
Definition empty_parent_input : WorkflowDefinitionSchema :=
  {| nodes := [child "input" "InputNode" ""; node "a" "Node"];
     links := [link "input" "a"] |}.

(** x -> n, in an executor where the task of [x] is done and has
    raised. *)
Definition after_failure : WorkflowExecutor :=
  add_failed "x"
    (set_task_state "x" (Done (Raise (NodeError "boom")))
       (add_task "x"
          (executor {| nodes := [node "x" "FailNode"; node "n" "Node"];
                       links := [link "x" "n"] |}))).

Definition answer : BaseNodeOutput := out [("answer", PInt 42)].

(** x -> n, in an executor where the task of [x] is done and has
    returned [answer]. *)
Definition after_output : WorkflowExecutor :=
  set_output "x" (Some answer)
    (set_task_state "x" (Done (Return (Some answer)))
       (add_task "x"
          (executor {| nodes := [node "x" "Node"; node "n" "Node"];
                       links := [link "x" "n"] |}))).

End Scenarios.

(* ===================================================================== *)
(** * Properties *)
(* ===================================================================== *)

(* ===================================================================== *)
(** ** Output serializer *)
(* ===================================================================== *)

Section SerializerFacts.
Variable isoformat : Z → string.
Variable str : PyVal → string.

Lemma serialize_datetime t :
  _serialize_value isoformat str (PDatetime t) = PStr (isoformat t).
Proof. reflexivity. Qed.

Lemma serialize_list items :
  _serialize_value isoformat str (PList items)
  = PList (map (_serialize_value isoformat str) items).
Proof. reflexivity. Qed.

Lemma serialize_set elems :
  _serialize_value isoformat str (PSet elems) = PList elems.
Proof. reflexivity. Qed.

(** C9, at the failing input: an output whose field [seen] is a set
    holding one datetime.  The set becomes a list, but its element is
    still the datetime, not the ISO-8601 string the list branch would
    have produced. *)
Theorem serialize_set_keeps_datetime (t : Z) :
  let output := {| fields := [("seen", PSet [PDatetime t])];
                   human_intervention := None |} in
  _serialize_output isoformat str (Some output)
    = Some [(str (PStr "seen"), PList [PDatetime t])]
  ∧ _serialize_value isoformat str (PSet [PDatetime t])
    ≠ PList [PStr (isoformat t)]
  ∧ _serialize_value isoformat str (PList [PDatetime t])
    = PList [PStr (isoformat t)].
Proof.
  split; [reflexivity|]. split; [|reflexivity].
  simpl. intros H. discriminate H.
Qed.
End SerializerFacts.

(* ===================================================================== *)
(** ** Subworkflow hoisting *)
(* ===================================================================== *)

Section Hoisting.
Implicit Types (n : WorkflowNodeSchema) (ns : list WorkflowNodeSchema).
Implicit Types (groups : list (option string * list WorkflowNodeSchema)).

Lemma dict_get_set_eq {V : Type} (k : string) (v : V) d :
  dict_get k (dict_set k v d) = Some v.
Proof.
  induction d as [|[k' v'] d IH]; simpl.
  - by rewrite bool_decide_eq_true_2.
  - destruct (bool_decide (k = k')) eqn:E; simpl; rewrite E; [done|apply IH].
Qed.

Lemma group_get_group_add p q n groups :
  group_get p (group_add q n groups)
  = if bool_decide (p = q)
    then Some (default [] (group_get p groups) ++ [n])
    else group_get p groups.
Proof.
  induction groups as [|[k c] groups IH]; simpl.
  - destruct (bool_decide (p = q)); reflexivity.
  - destruct (bool_decide (q = k)) eqn:Eqk; simpl.
    + apply bool_decide_eq_true_1 in Eqk. subst k.
      destruct (bool_decide (p = q)); reflexivity.
    + rewrite IH. destruct (bool_decide (p = k)) eqn:Epk; [|done].
      apply bool_decide_eq_true_1 in Epk. subst k.
      rewrite bool_decide_eq_false_2; [done|].
      apply bool_decide_eq_false_1 in Eqk. congruence.
Qed.

Lemma group_add_keys q n groups :
  NoDup (map fst groups) → NoDup (map fst (group_add q n groups)).
Proof.
  induction groups as [|[k c] groups IH]; simpl; intros Hnd.
  - apply NoDup_singleton.
  - destruct (bool_decide (q = k)) eqn:Eqk; simpl; [done|].
    apply NoDup_cons in Hnd as [Hk Hnd]. apply NoDup_cons. split; [|auto].
    intros Hin. apply Hk. clear -Hin Eqk.
    apply bool_decide_eq_false_1 in Eqk.
    induction groups as [|[k' c'] groups IH]; simpl in *.
    + apply list_elem_of_singleton in Hin. congruence.
    + destruct (bool_decide (q = k')); simpl in *; [done|].
      apply elem_of_cons in Hin as [->|Hin]; [left|right; auto].
Qed.

Lemma grouped_keys ns groups :
  NoDup (map fst groups) → NoDup (map fst (foldl add_node groups ns)).
Proof.
  revert groups. induction ns as [|n ns IH]; simpl; intros groups H; [done|].
  apply IH, group_add_keys, H.
Qed.

Lemma grouped_get p ns groups :
  group_get p (foldl add_node groups ns)
  = match in_group p ns with
    | [] => group_get p groups
    | c => Some (default [] (group_get p groups) ++ c)
    end.
Proof.
  revert groups. induction ns as [|n ns IH]; simpl; intros groups; [done|].
  rewrite IH. unfold add_node at 1 2. rewrite group_get_group_add.
  unfold in_group. simpl.
  destruct (bool_decide (parent_id n = p)) eqn:E; simpl.
  - apply bool_decide_eq_true_1 in E. subst p.
    rewrite bool_decide_eq_true_2 by done. simpl.
    fold (in_group (parent_id n) ns).
    destruct (in_group (parent_id n) ns); simpl; [done|].
    by rewrite <- app_assoc.
  - apply bool_decide_eq_false_1 in E.
    rewrite bool_decide_eq_false_2 by congruence. done.
Qed.

Lemma nodes_by_parent_get workflow p :
  group_get p (nodes_by_parent workflow)
  = match children_of workflow p with [] => None | c => Some c end.
Proof.
  unfold nodes_by_parent. rewrite grouped_get. reflexivity.
Qed.

Lemma root_nodes_are_children workflow :
  default [] (group_get None (nodes_by_parent workflow))
  = children_of workflow None.
Proof.
  rewrite nodes_by_parent_get. by destruct (children_of workflow None).
Qed.

(** [update_first] keeps ids, parents, and every node with another id. *)
Lemma update_first_ids pid f ns :
  (∀ n, node_id (f n) = node_id n) →
  map node_id (update_first pid f ns) = map node_id ns.
Proof.
  intros Hf. induction ns as [|n ns IH]; simpl; [done|].
  destruct (bool_decide (node_id n = pid)); simpl; [by rewrite Hf|by rewrite IH].
Qed.

Lemma update_first_other pid f ns n :
  n ∈ ns → node_id n ≠ pid → n ∈ update_first pid f ns.
Proof.
  intros Hin Hne. induction ns as [|m ns IH]; simpl; [done|].
  apply elem_of_cons in Hin as [->|Hin].
  - rewrite bool_decide_eq_false_2 by done. left.
  - destruct (bool_decide (node_id m = pid)); right; auto.
Qed.

Lemma update_first_hit f ns n :
  NoDup (map node_id ns) → n ∈ ns → f n ∈ update_first (node_id n) f ns.
Proof.
  induction ns as [|m ns IH]; simpl; intros Hnd Hin; [by apply elem_of_nil in Hin|].
  apply NoDup_cons in Hnd as [Hm Hnd].
  destruct (bool_decide (node_id m = node_id n)) eqn:E.
  - apply bool_decide_eq_true_1 in E.
    apply elem_of_cons in Hin as [->|Hin]; [left|].
    exfalso. apply Hm. rewrite E. apply list_elem_of_fmap. eauto.
  - apply elem_of_cons in Hin as [->|Hin].
    + apply bool_decide_eq_false_1 in E. done.
    + right. auto.
Qed.

Lemma update_first_Forall (P : WorkflowNodeSchema → Prop) pid f ns :
  (∀ n, P n → P (f n)) → Forall P ns → Forall P (update_first pid f ns).
Proof.
  intros Hf. induction 1 as [|n ns Hn Hns IH]; simpl; [constructor|].
  destruct (bool_decide (node_id n = pid)); constructor; auto.
Qed.

Lemma attach_ids workflow ns group :
  map node_id (attach_subworkflow workflow ns group) = map node_id ns.
Proof.
  destruct group as [[pid|] c]; simpl; [|done].
  by apply update_first_ids.
Qed.

Lemma attach_all_ids workflow groups ns :
  map node_id (foldl (attach_subworkflow workflow) ns groups)
  = map node_id ns.
Proof.
  revert ns. induction groups as [|g groups IH]; simpl; intros ns; [done|].
  by rewrite IH, attach_ids.
Qed.

Lemma attach_all_Forall (P : WorkflowNodeSchema → Prop) workflow groups ns :
  (∀ n cfg, P n → P (set_config cfg n)) →
  Forall P ns → Forall P (foldl (attach_subworkflow workflow) ns groups).
Proof.
  intros HP. revert ns.
  induction groups as [|[[pid|] c] groups IH]; simpl; intros ns H; auto.
  apply IH, update_first_Forall; auto.
Qed.

(** A root node is left alone by the groups of other parents. *)
Lemma attach_all_other workflow groups ns n :
  n ∈ ns → Some (node_id n) ∉ map fst groups →
  n ∈ foldl (attach_subworkflow workflow) ns groups.
Proof.
  revert ns. induction groups as [|[k c] groups IH]; simpl; intros ns Hin Hk;
    [done|].
  apply not_elem_of_cons in Hk as [Hk1 Hk2].
  apply IH; [|done].
  destruct k as [pid|]; simpl; [|done].
  apply update_first_other; [done|congruence].
Qed.

Lemma attach_all_hit workflow groups ns n c :
  NoDup (map fst groups) → NoDup (map node_id ns) → n ∈ ns →
  group_get (Some (node_id n)) groups = Some c →
  set_config
    (dict_set "subworkflow"
       (dump_workflow {| nodes := c; links := subworkflow_links workflow c |})
       (config n)) n
  ∈ foldl (attach_subworkflow workflow) ns groups.
Proof.
  revert ns. induction groups as [|[k c'] groups IH];
    intros ns Hg Hns Hin Hget; [done|].
  cbn [foldl group_get map fst] in *.
  apply NoDup_cons in Hg as [Hk Hg].
  destruct (bool_decide (Some (node_id n) = k)) eqn:E.
  - apply bool_decide_eq_true_1 in E. subst k. injection Hget as ->.
    apply attach_all_other; [|done]. simpl.
    match goal with |- _ ∈ update_first _ ?f _ =>
      apply (update_first_hit f) end; done.
  - apply bool_decide_eq_false_1 in E.
    apply IH; [done| |  |done].
    + by rewrite attach_ids.
    + destruct k as [pid|]; simpl; [|done].
      apply update_first_other; [done|congruence].
Qed.
End Hoisting.

Section HoistingSpec.
Variable workflow : WorkflowDefinitionSchema.

Lemma hoisted_nodes_have_no_parent n :
  n ∈ nodes (_process_subworkflows workflow) → parent_id n = None.
Proof.
  unfold _process_subworkflows. simpl. rewrite root_nodes_are_children.
  revert n. apply Forall_forall.
  apply attach_all_Forall; [done|].
  apply Forall_forall. intros n Hn.
  apply list_elem_of_fmap in Hn as (m & -> & _). reflexivity.
Qed.

Lemma top_level_link_spec link :
  top_level_link workflow link = true
  ↔ ∀ n, n ∈ nodes workflow →
         node_id n = source_id link ∨ node_id n = target_id link →
         truthy (parent_id n) = false.
Proof.
  unfold top_level_link. rewrite negb_true_iff.
  rewrite <- not_true_iff_false, existsb_exists. split.
  - intros Hno n Hn Hid. apply not_true_iff_false. intros Ht. apply Hno.
    exists n. split; [|done]. apply filter_In. split; [by apply list_elem_of_In|].
    apply orb_true_iff. destruct Hid as [Hid|Hid]; [left|right];
      by apply bool_decide_eq_true_2.
  - intros Hall (n & Hn & Ht). apply filter_In in Hn as [Hn Hid].
    apply list_elem_of_In in Hn. rewrite Hall in Ht; [done|done|].
    apply orb_true_iff in Hid as [Hid|Hid]; [left|right];
      by apply bool_decide_eq_true_1 in Hid.
Qed.

Lemma child_ids p x :
  x ∈ map node_id (children_of workflow p)
  ↔ ∃ n, n ∈ nodes workflow ∧ parent_id n = p ∧ node_id n = x.
Proof.
  unfold children_of, in_group. rewrite <- list_fmap_compose. split.
  - intros Hx. apply list_elem_of_fmap in Hx as (n & -> & Hn).
    apply list_elem_of_In, filter_In in Hn as [Hn Hp].
    apply bool_decide_eq_true_1 in Hp. apply list_elem_of_In in Hn. eauto.
  - intros (n & Hn & Hp & <-). apply list_elem_of_fmap. exists n. split; [done|].
    apply list_elem_of_In, filter_In. split; [by apply list_elem_of_In|].
    by apply bool_decide_eq_true_2.
Qed.

Lemma subworkflow_links_spec pid link :
  link ∈ links (subworkflow_of workflow pid)
  ↔ link ∈ links workflow
    ∧ (∃ s, s ∈ nodes workflow ∧ parent_id s = Some pid
            ∧ node_id s = source_id link)
    ∧ (∃ t, t ∈ nodes workflow ∧ parent_id t = Some pid
            ∧ node_id t = target_id link).
Proof.
  unfold subworkflow_of, subworkflow_links. simpl.
  rewrite list_elem_of_In, filter_In, andb_true_iff, !bool_decide_eq_true.
  rewrite !child_ids, list_elem_of_In. tauto.
Qed.

Lemma unique_node n m :
  NoDup (map node_id (nodes workflow)) →
  n ∈ nodes workflow → m ∈ nodes workflow → node_id n = node_id m → n = m.
Proof.
  intros Hnd Hn Hm Hid.
  apply list_elem_of_lookup in Hn as [i Hi]. apply list_elem_of_lookup in Hm as [j Hj].
  assert (i = j) as ->; [|congruence].
  eapply NoDup_lookup; [exact Hnd| |]; rewrite list_lookup_fmap.
  - by rewrite Hi.
  - rewrite Hj. simpl. by rewrite Hid.
Qed.

Lemma root_ids_unique :
  NoDup (map node_id (nodes workflow)) →
  NoDup (map node_id (children_of workflow None)).
Proof.
  unfold children_of, in_group. rewrite <- list_fmap_compose.
  generalize (nodes workflow). intros ns.
  induction ns as [|n ns IH]; simpl; intros Hnd; [constructor|].
  apply NoDup_cons in Hnd as [Hn Hnd].
  destruct (bool_decide (parent_id n = None)); simpl; [|auto].
  apply NoDup_cons. split; [|auto].
  intros Hin. apply Hn. apply list_elem_of_fmap in Hin as (m & Hid & Hm).
  apply list_elem_of_In, filter_In in Hm as [Hm _]. apply list_elem_of_In in Hm.
  simpl in Hid. rewrite Hid. apply list_elem_of_fmap. eauto.
Qed.

End HoistingSpec.



(* ===================================================================== *)
(** ** Constructor and link validation *)
(* ===================================================================== *)

Section Validation.
Implicit Types (deps : gmap string (gset string)).
Implicit Types (link : WorkflowLinkSchema) (ls : list WorkflowLinkSchema).

Lemma empty_dependencies_lookup (ns : list WorkflowNodeSchema) d k :
  is_Some (foldl (λ (d : gmap string (gset string)) node,
                    <[node_id node := ∅]> d) d ns !! k)
  ↔ is_Some (d !! k) ∨ k ∈ map node_id ns.
Proof.
  revert d. induction ns as [|n ns IH]; simpl; intros d.
  - rewrite elem_of_nil. tauto.
  - rewrite IH, elem_of_cons, lookup_insert_is_Some. 
    destruct (decide (node_id n = k)); intuition congruence.
Qed.

Lemma add_dependency_raise e link : add_dependency (Raise e) link = Raise e.
Proof. reflexivity. Qed.

Lemma add_dependencies_raise e ls : foldl add_dependency (Raise e) ls = Raise e.
Proof. induction ls; simpl; auto. Qed.

Lemma add_dependencies_return ls deps :
  (∀ link, link ∈ ls → is_Some (deps !! target_id link)) →
  ∃ deps', foldl add_dependency (Return deps) ls = Return deps'.
Proof.
  revert deps. induction ls as [|l ls IH]; simpl; intros deps H; [eauto|].
  destruct (H l) as [s Hs]; [left|]. rewrite Hs. apply IH.
  intros link Hl. rewrite lookup_insert_is_Some'. right. apply H. by right.
Qed.

Lemma add_dependencies_key_error ls deps e :
  foldl add_dependency (Return deps) ls = Raise e →
  ∃ link, link ∈ ls ∧ deps !! target_id link = None
          ∧ e = KeyError (target_id link).
Proof.
  revert deps. induction ls as [|l ls IH]; simpl; intros deps H; [done|].
  destruct (deps !! target_id l) as [s|] eqn:Hs.
  - apply IH in H as (link & Hl & Hnone & ->). exists link.
    split; [by right|]. split; [|done].
    apply lookup_insert_None in Hnone. tauto.
  - rewrite add_dependencies_raise in H. injection H as <-.
    exists l. split; [left|done].
Qed.

Lemma add_source_handles_raise self e ls :
  foldl (add_source_handle self) (Raise e) ls = Raise e.
Proof. induction ls; simpl; auto. Qed.

Lemma add_source_handle_rejects self acc link :
  link_is_rejected self link → ∃ e, add_source_handle self acc link = Raise e.
Proof.
  unfold link_is_rejected, add_source_handle. intros H.
  destruct acc as [sh|e]; [|eauto].
  destruct (_node_dict self !! source_id link) as [n|]; [|eauto].
  destruct H as [Hr Hh]. rewrite bool_decide_eq_true_2 by done.
  destruct (source_handle link) as [h|]; [|eauto].
  rewrite Hh. eauto.
Qed.

Lemma add_source_handles_reject self ls acc link :
  link ∈ ls → link_is_rejected self link →
  ∃ e, foldl (add_source_handle self) acc ls = Raise e.
Proof.
  revert acc. induction ls as [|l ls IH]; simpl; intros acc Hin Hbad;
    [by apply elem_of_nil in Hin|].
  apply elem_of_cons in Hin as [<-|Hin]; [|by apply IH].
  destruct (add_source_handle_rejects self acc link Hbad) as [e ->].
  rewrite add_source_handles_raise. eauto.
Qed.
End Validation.

Section LazyValidation.
Variable isoformat : Z → string.
Variable str : PyVal → string.
Variable create_node : string → string → list (string * PyVal) → Try BaseNode.

Lemma source_handle_error self acc link e :
  add_source_handle self (Return acc) link = Raise e →
  (∃ k, e = KeyError k) ∨ (∃ m, e = ValueError m).
Proof.
  unfold add_source_handle, missing_source_handle.
  destruct (_node_dict self !! source_id link) as [n|]; [|intros [= <-]; eauto].
  destruct (bool_decide (node_type n = "RouterNode")); [|done].
  destruct (source_handle link) as [h|]; [|intros [= <-]; eauto].
  destruct (truthy (Some h)); [done|intros [= <-]; eauto].
Qed.

Lemma source_handle_errors self ls acc e :
  foldl (add_source_handle self) (Return acc) ls = Raise e →
  (∃ k, e = KeyError k) ∨ (∃ m, e = ValueError m).
Proof.
  revert acc. induction ls as [|l ls IH]; cbn [foldl]; intros acc H; [done|].
  destruct (add_source_handle self (Return acc) l) as [acc'|e'] eqn:E; [eauto|].
  rewrite add_source_handles_raise in H. injection H as <-.
  by apply source_handle_error in E.
Qed.

End LazyValidation.


(* ===================================================================== *)
(** ** Pause and failure at the end of [run] *)
(* ===================================================================== *)

Section PauseAndFailure.
Variable isoformat : Z → string.
Variable str : PyVal → string.
Variable create_node : string → string → list (string * PyVal) → Try BaseNode.

Lemma record_outputs c self : _outputs (record c self) = _outputs self.
Proof. unfold record. by destruct (task_recorder self). Qed.

Lemma record_failed c self : _failed_nodes (record c self) = _failed_nodes self.
Proof. unfold record. by destruct (task_recorder self). Qed.

Lemma record_tasks c self : _node_tasks (record c self) = _node_tasks self.
Proof. unfold record. by destruct (task_recorder self). Qed.

Lemma record_keys c self :
  _node_tasks_keys (record c self) = _node_tasks_keys self.
Proof. unfold record. by destruct (task_recorder self). Qed.

(** Without a [PauseException] among the results the sweep never sets
    [paused_node_id], so the downstream walk is not run. *)
Lemma sweep_without_pause self pairs :
  Forall (λ p, raises_pause p.2 = false) pairs →
  ∃ self', sweep self None pairs = Some (self', None).
Proof.
  revert self. induction pairs as [|[nid r] pairs IH]; intros self Hall;
    [by eexists|].
  apply Forall_cons in Hall as [Hr Hall]. simpl in Hr.
  destruct r as [o|e]; simpl; [by apply IH|].
  destruct e; simpl in Hr; try done; by apply IH.
Qed.

Lemma zip_results_no_pause (keys : list string)
    (results : list (Try (option BaseNodeOutput))) :
  Forall (λ r, raises_pause r = false) results →
  Forall (λ p : string * Try (option BaseNodeOutput), raises_pause p.2 = false)
         (zip keys results).
Proof.
  intros Hall. apply Forall_forall. intros [k r] Hin.
  apply elem_of_zip_r in Hin. simpl.
  by eapply Forall_forall in Hall.
Qed.

End PauseAndFailure.



(* ===================================================================== *)
(** ** Gating steps of [_execute_node] *)
(* ===================================================================== *)

Section Gating.
Variable isoformat : Z → string.
Variable str : PyVal → string.
Variable create_node : string → string → list (string * PyVal) → Try BaseNode.

Local Abbreviation after_gather := (after_gather isoformat str create_node).
Local Abbreviation instantiate_and_invoke :=
  (instantiate_and_invoke isoformat str create_node).
Local Abbreviation await_task := (await_task isoformat str create_node).
Local Abbreviation _execute_node := (_execute_node isoformat str create_node).

(** [_execute_node] up to the end of the gather, when the node is known,
    not memoised, and its dependencies all return. *)
Lemma execute_node_gathered fuel self nid node deps self1 rs preds :
  _node_dict self !! nid = Some node →
  _outputs self !! nid = None →
  elements (default ∅ (_dependencies self !! nid)) = deps → deps ≠ [] →
  await_each (await_task fuel)
    (foldl _get_async_task_for_node_execution self deps) deps
    = Some (self1, rs) →
  gather rs = GatherReturn preds →
  _execute_node fuel self nid
  = finish (handlers nid (after_gather self1 node nid deps preds)).
Proof.
  intros Hn Ho Hd Hne Ha Hg. unfold _execute_node, _execute_node_with.
  rewrite Hn, Ho, Hd. destruct deps as [|d deps]; [done|].
  rewrite Ha. simpl. by rewrite Hg.
Qed.

Lemma inputs_of_app nid h1 h2 :
  inputs_of nid (h1 ++ h2) = inputs_of nid h1 ++ inputs_of nid h2.
Proof. apply omap_app. Qed.

Lemma inputs_of_record nid c self :
  inputs_of nid (history (record c self)) = inputs_of nid (history self).
Proof.
  unfold record. destruct (task_recorder self); [|done].
  simpl. rewrite inputs_of_app. simpl. apply app_nil_r.
Qed.

Lemma count_events_app p h1 h2 :
  count_events p (h1 ++ h2) = count_events p h1 + count_events p h2.
Proof. unfold count_events. by rewrite List.filter_app, length_app. Qed.

Lemma count_instantiation_record use nid c self :
  count_events (is_instantiation use nid) (history (record c self))
  = count_events (is_instantiation use nid) (history self).
Proof.
  unfold record. destruct (task_recorder self); [|done].
  simpl. rewrite count_events_app. cbn. lia.
Qed.

(** The three gates leave the node uninvoked and uninstantiated. *)
Lemma gates_do_not_invoke self node nid deps preds :
  node_type node ≠ "CoalesceNode" → None ∈ preds →
  let r := handlers nid (after_gather self node nid deps preds) in
  inputs_of nid (history r.1) = inputs_of nid (history self)
  ∧ count_events (is_instantiation Execution nid) (history r.1)
    = count_events (is_instantiation Execution nid) (history self).
Proof.
  intros Hc Hnone. unfold after_gather.
  destruct (blocked_by_pause self nid deps).
  { simpl. by rewrite inputs_of_record, count_instantiation_record. }
  destruct (existsb _ deps).
  { simpl. by rewrite inputs_of_record, count_instantiation_record. }
  rewrite bool_decide_eq_false_2 by done.
  replace (existsb is_None preds) with true.
  { simpl. by rewrite inputs_of_record, count_instantiation_record. }
  symmetry. apply existsb_exists. exists None. split; [|done].
  by apply list_elem_of_In.
Qed.

Lemma assemble_non_routers self sh nid pairs acc :
  (∀ p, p ∈ pairs →
        ∃ n, _node_dict self !! p.1 = Some n ∧ node_type n ≠ "RouterNode") →
  assemble_input self sh nid pairs acc
  = Inputs (foldl (λ (m : gmap string (option InputValue)) p,
                     <[p.1 := InOutput <$> p.2]> m) acc pairs).
Proof.
  revert acc. induction pairs as [|[d o] pairs IH]; simpl; intros acc H; [done|].
  destruct (H (d, o)) as (n & Hd & Hn); [left|]. simpl in Hd. rewrite Hd.
  rewrite bool_decide_eq_false_2 by done. apply IH.
  intros p Hp. apply H. by right.
Qed.

Lemma stored_pairs_lookup {A : Type} (pairs : list (string * A))
    (acc : gmap string A) d :
  NoDup pairs.*1 →
  (∀ x, (d, x) ∈ pairs →
        foldl (λ (m : gmap string A) p, <[p.1 := p.2]> m) acc pairs !! d
        = Some x)
  ∧ (d ∉ pairs.*1 →
     foldl (λ (m : gmap string A) p, <[p.1 := p.2]> m) acc pairs !! d
     = acc !! d).
Proof.
  revert acc. induction pairs as [|[k a] pairs IH]; simpl; intros acc Hnd.
  - split; [intros x Hx; by apply elem_of_nil in Hx|done].
  - apply NoDup_cons in Hnd as [Hk Hnd]. split.
    + intros x Hx. apply elem_of_cons in Hx as [[= <- <-]|Hx].
      * rewrite (proj2 (IH _ Hnd)) by done. apply lookup_insert_eq.
      * by apply (proj1 (IH _ Hnd)).
    + intros Hd. apply not_elem_of_cons in Hd as [Hdk Hd].
      rewrite (proj2 (IH _ Hnd)) by done. by apply lookup_insert_ne.
Qed.

Lemma non_null_inputs_lookup deps preds d v :
  NoDup deps →
  non_null_inputs deps preds !! d = Some v
  ↔ ∃ o, (d, Some o) ∈ zip deps preds ∧ v = InOutput o.
Proof.
  intros Hnd. unfold non_null_inputs. rewrite lookup_omap.
  set (pairs := (λ p : string * option BaseNodeOutput,
                   (p.1, InOutput <$> p.2)) <$> zip deps preds).
  assert (foldl (λ (m : gmap string (option InputValue))
                   (p : string * option BaseNodeOutput),
                   <[p.1 := InOutput <$> p.2]> m) ∅ (zip deps preds)
          = foldl (λ (m : gmap string (option InputValue)) p,
                     <[p.1 := p.2]> m) ∅ pairs) as ->.
  { unfold pairs. generalize (∅ : gmap string (option InputValue)).
    induction (zip deps preds) as [|p l IH]; simpl; intros m; [done|].
    by rewrite IH. }
  assert (pairs.*1 = (zip deps preds).*1) as Hfst.
  { unfold pairs. rewrite <- list_fmap_compose. done. }
  assert (NoDup pairs.*1) as Hnd'.
  { rewrite Hfst. eapply sublist_NoDup; [exact Hnd|].
    clear. revert preds. induction deps as [|x deps IH]; intros [|y preds];
      simpl; try constructor; auto. apply sublist_nil_l. }
  destruct (stored_pairs_lookup pairs ∅ d Hnd') as [Hin Hout].
  split.
  - intros Hv.
    destruct (decide (d ∈ pairs.*1)) as [Hd|Hd].
    + apply list_elem_of_fmap in Hd as ([d' x] & -> & Hx). simpl in *.
      rewrite (Hin x Hx) in Hv. simpl in Hv. subst x.
      apply list_elem_of_fmap in Hx as ([d'' o] & [= -> Ho] & Hp). simpl in *.
      destruct o as [o|]; [|done]. injection Ho as ->. eauto.
    + rewrite (Hout Hd), lookup_empty in Hv. done.
  - intros (o & Hp & ->).
    rewrite (Hin (Some (InOutput o))); [done|].
    apply list_elem_of_fmap. exists (d, Some o). done.
Qed.

Lemma invocation_is_logged self node nid node_input node_instance :
  node_input ≠ ∅ →
  create_node (title node) (node_type node) (config node)
    = Return node_instance →
  let r := handlers nid (instantiate_and_invoke self node nid node_input) in
  inputs_of nid (history r.1) = inputs_of nid (history self) ++ [node_input].
Proof.
  intros Hne Hc. unfold instantiate_and_invoke.
  rewrite bool_decide_eq_false_2 by done. rewrite Hc.
  assert (inputs_of nid
            (history (emit (Invoke nid Execution node_input)
               (record (update_task nid RUNNING None None false)
                  (emit (Factory nid Execution)
                     (record (update_task nid RUNNING None None false) self)))))
          = inputs_of nid (history self) ++ [node_input]) as Hlog.
  { simpl. rewrite inputs_of_app, inputs_of_record. simpl.
    rewrite inputs_of_app, inputs_of_record. simpl.
    rewrite bool_decide_eq_true_2 by done. by rewrite app_nil_r. }
  destruct (call node_instance node_input) as [output|e]; simpl.
  - by rewrite inputs_of_record.
  - destruct e; simpl; rewrite ?inputs_of_record; exact Hlog.
Qed.
End Gating.

Section NullGating.
Variable isoformat : Z → string.
Variable str : PyVal → string.
Variable create_node : string → string → list (string * PyVal) → Try BaseNode.

Local Abbreviation after_gather := (after_gather isoformat str create_node).
Local Abbreviation instantiate_and_invoke :=
  (instantiate_and_invoke isoformat str create_node).
Local Abbreviation await_task := (await_task isoformat str create_node).
Local Abbreviation _execute_node := (_execute_node isoformat str create_node).

Lemma no_failed_dependency self (deps : list string) :
  (∀ d, d ∈ deps → d ∉ _failed_nodes self) →
  existsb (λ dep_id, bool_decide (dep_id ∈ _failed_nodes self)) deps = false.
Proof.
  intros H. apply not_true_iff_false. intros Hex.
  apply existsb_exists in Hex as (d & Hd & Hf).
  apply bool_decide_eq_true_1 in Hf. apply list_elem_of_In in Hd.
  by apply (H d).
Qed.

Lemma some_None (preds : list (option BaseNodeOutput)) :
  None ∈ preds → existsb is_None preds = true.
Proof.
  intros H. apply existsb_exists. exists None. split; [|done].
  by apply list_elem_of_In.
Qed.

End NullGating.



(** The coalesce exemption at work: in [fan_in] the predecessor [b] of the
    coalesce node [c] returned [None]; [c] is invoked once, on the output
    of [a] alone. *)
Lemma coalesce_runs_on_partial_inputs :
  ∃ self outputs a_output,
    Scenarios.run_on Scenarios.fan_in [] ∅ = Some (self, RunReturn outputs)
    ∧ _node_tasks self !! "b" = Some (Done (Return None))
    ∧ _outputs self !! "a" = Some (Some a_output)
    ∧ inputs_of "c" (history self) = [ {[ "a" := InOutput a_output ]} ]
    ∧ statuses_of "c" (history self)
      = [(RUNNING, false); (RUNNING, false); (COMPLETED, false)].
Proof.
  eexists _, _, _. split; [vm_compute; reflexivity|].
  repeat split; vm_compute; reflexivity.
Qed.

(* ===================================================================== *)
(** ** Router selection *)
(* ===================================================================== *)

Section RouterSelection.
Variable isoformat : Z → string.
Variable str : PyVal → string.
Variable create_node : string → string → list (string * PyVal) → Try BaseNode.

Local Abbreviation after_gather := (after_gather isoformat str create_node).
Local Abbreviation await_task := (await_task isoformat str create_node).
Local Abbreviation _execute_node := (_execute_node isoformat str create_node).

(** The handle stored for the pair [(R, C)] when every link from [R] to
    [C] carries the handle [h]. *)
Lemma source_handle_of_links self R C h router_node ls acc source_handles :
  _node_dict self !! R = Some router_node →
  node_type router_node = "RouterNode" →
  (∀ link, link ∈ ls → source_id link = R → target_id link = C →
           source_handle link = Some h) →
  foldl (add_source_handle self) (Return acc) ls = Return source_handles →
  (acc !! (R, C) = Some h ∧ truthy (Some h) = true)
  ∨ (∃ link, link ∈ ls ∧ source_id link = R ∧ target_id link = C) →
  source_handles !! (R, C) = Some h ∧ truthy (Some h) = true.
Proof.
  intros HR Hrouter. revert acc.
  induction ls as [|l ls IH]; cbn [foldl]; intros acc Hall Hfold Hor.
  { injection Hfold as <-. destruct Hor as [?|(link & Hl & _)]; [done|].
    by apply elem_of_nil in Hl. }
  destruct (add_source_handle self (Return acc) l) as [acc'|e] eqn:Hstep;
    [|by rewrite add_source_handles_raise in Hfold].
  apply (IH acc'); [intros link Hl; apply Hall; by right|done|].
  destruct (decide (source_id l = R ∧ target_id l = C)) as [[Hs Ht]|Hne].
  - left. unfold add_source_handle in Hstep.
    rewrite Hs, HR, bool_decide_eq_true_2 in Hstep by done.
    rewrite (Hall l) in Hstep by (done || left).
    destruct (truthy (Some h)) eqn:Hh; [|done].
    injection Hstep as <-. rewrite Ht. by rewrite lookup_insert_eq.
  - assert (acc' !! (R, C) = acc !! (R, C)) as Hsame.
    { unfold add_source_handle in Hstep.
      destruct (_node_dict self !! source_id l) as [n|]; [|done].
      destruct (bool_decide (node_type n = "RouterNode"));
        [|by injection Hstep as <-].
      destruct (source_handle l) as [h0|]; [|done].
      destruct (truthy (Some h0)); [|done]. injection Hstep as <-.
      apply lookup_insert_ne. intros [= ? ?]. by apply Hne. }
    rewrite Hsame. destruct Hor as [?|(link & Hl & Hs & Ht)]; [by left|].
    right. exists link. split; [|done].
    apply elem_of_cons in Hl as [->|Hl]; [|done]. by destruct Hne.
Qed.

End RouterSelection.



(* ===================================================================== *)
(** ** Pause isolation *)
(* ===================================================================== *)

Section PauseIsolation.
Variable isoformat : Z → string.
Variable str : PyVal → string.
Variable create_node : string → string → list (string * PyVal) → Try BaseNode.

Local Abbreviation await_task := (await_task isoformat str create_node).
Local Abbreviation _execute_node := (_execute_node isoformat str create_node).

Lemma blocked_by_paused_dependency self nid (deps : list string) H output hi :
  H ∈ deps →
  _outputs self !! H = Some (Some output) →
  human_intervention output = Some hi →
  resume_time hi = None → nid ∈ blocked_nodes hi →
  blocked_by_pause self nid deps = true.
Proof.
  intros Hin Ho Hhi Hr Hb. apply existsb_exists. exists H.
  split; [by apply list_elem_of_In|].
  unfold paused_and_blocking. rewrite Ho, Hhi.
  by rewrite !bool_decide_eq_true_2.
Qed.

Lemma walk_reaches_along_first_chain dependencies paused current :
  on_first_chain dependencies paused current →
  ∃ fuel, downstream_walk fuel dependencies paused current = Some true.
Proof.
  induction 1 as [current deps Hd Hin|current deps next rest Hd Hout He _ [fuel IH]].
  - exists 1. simpl. rewrite Hd. by rewrite bool_decide_eq_true_2.
  - exists (S fuel). simpl. rewrite Hd, He.
    by rewrite bool_decide_eq_false_2.
Qed.

Lemma walk_stays_on_first_chain fuel dependencies paused current :
  downstream_walk fuel dependencies paused current = Some true →
  on_first_chain dependencies paused current.
Proof.
  revert current. induction fuel as [|fuel IH]; simpl; intros current H; [done|].
  destruct (dependencies !! current) as [deps|] eqn:Hd; [|done].
  destruct (bool_decide (paused ∈ deps)) eqn:Hin.
  - apply bool_decide_eq_true_1 in Hin. by eapply chain_here.
  - apply bool_decide_eq_false_1 in Hin.
    destruct (elements deps) as [|next rest] eqn:He; [done|].
    eapply chain_next; eauto.
Qed.

End PauseIsolation.



(* ===================================================================== *)
(** ** The scheduler: what one task may change *)
(* ===================================================================== *)

Section BodyEffects.
Variable isoformat : Z → string.
Variable str : PyVal → string.
Variable create_node : string → string → list (string * PyVal) → Try BaseNode.

Local Abbreviation after_gather := (after_gather isoformat str create_node).
Local Abbreviation instantiate_and_invoke :=
  (instantiate_and_invoke isoformat str create_node).

Local Ltac touch :=
  repeat first
    [ apply touches_record | apply touches_output | apply touches_failed
    | apply touches_invoke | apply touches_nothing ].

Lemma instantiate_and_invoke_touches self node nid node_input :
  ∃ k : nat, (k ≤ 1)%nat
       ∧ touches nid k self (instantiate_and_invoke self node nid node_input).1.
Proof.
  unfold instantiate_and_invoke.
  destruct (bool_decide (node_input = ∅)).
  { exists 0. split; [lia|]. simpl. touch. }
  exists 1. split; [lia|].
  destruct (create_node _ _ _) as [inst|e]; simpl.
  - destruct (call inst node_input) as [o|e]; simpl.
    + touch. apply touches_factory. touch.
    + destruct e; simpl; touch; apply touches_factory; touch.
  - apply touches_factory. touch.
Qed.

Lemma handlers_touches nid k self r :
  touches nid k self r.1 → touches nid k self (handlers nid r).1.
Proof.
  destruct r as [s [o|e]]; simpl; [done|].
  intros H. destruct e; simpl; touch; exact H.
Qed.

Lemma after_gather_touches self node nid deps preds :
  ∃ k : nat, (k ≤ 1)%nat
       ∧ touches nid k self
           (handlers nid (after_gather self node nid deps preds)).1.
Proof.
  unfold after_gather.
  destruct (blocked_by_pause self nid deps).
  { exists 0. split; [lia|]. simpl. touch. }
  destruct (existsb _ deps).
  { exists 0. split; [lia|]. simpl. touch. }
  destruct (negb _ && existsb is_None preds).
  { exists 0. split; [lia|]. simpl. touch. }
  destruct (_get_source_handles self) as [sh|e].
  2:{ exists 0. split; [lia|]. apply handlers_touches. simpl. touch. }
  destruct (assemble_input _ _ _ _ _) as [assembled| |e].
  - destruct (instantiate_and_invoke_touches self node nid
                (final_input self node nid assembled)) as (k & Hk & Ht).
    exists k. split; [done|]. by apply handlers_touches.
  - exists 0. split; [lia|]. simpl. touch.
  - exists 0. split; [lia|]. apply handlers_touches. simpl. touch.
Qed.

Lemma upstream_failure_touches self nid msg :
  touches nid 0 self (handlers nid (self, Raise (UpstreamFailure msg))).1.
Proof. simpl. touch. Qed.
End BodyEffects.

(** What [touches] leaves alone. *)
Section Touches.
Implicit Types (s : WorkflowExecutor).

Lemma touches_tasks nid k s s' :
  touches nid k s s' →
  _node_tasks s' = _node_tasks s ∧ _node_tasks_keys s' = _node_tasks_keys s
  ∧ _node_dict s' = _node_dict s ∧ _dependencies s' = _dependencies s
  ∧ workflow s' = workflow s ∧ task_recorder s' = task_recorder s
  ∧ _initial_inputs s' = _initial_inputs s.
Proof.
  induction 1 as [s|k s s' o _ IH|k s s' _ IH|k s s' st o e f _ IH
                 |k s s' _ IH|k s s' i _ IH]; simpl; try done.
  unfold record. destruct (task_recorder s') eqn:E; simpl; rewrite ?E; done.
Qed.

Lemma touches_other_output nid k s s' m :
  touches nid k s s' → m ≠ nid → _outputs s' !! m = _outputs s !! m.
Proof.
  intros H Hne.
  induction H as [s|k s s' o _ IH|k s s' _ IH|k s s' st o e f _ IH
                 |k s s' _ IH|k s s' i _ IH]; simpl; try done.
  - by rewrite lookup_insert_ne.
  - by rewrite record_outputs.
Qed.

Lemma touches_failed_nodes nid k s s' :
  touches nid k s s' →
  _failed_nodes s ⊆ _failed_nodes s'
  ∧ _failed_nodes s' ⊆ _failed_nodes s ∪ {[nid]}.
Proof.
  induction 1 as [s|k s s' o _ IH|k s s' _ IH|k s s' st o e f _ IH
                 |k s s' _ IH|k s s' i _ IH]; simpl.
  - split; [done|apply union_subseteq_l].
  - exact IH.
  - destruct IH as [IH1 IH2]. split.
    + etrans; [exact IH1|apply union_subseteq_l].
    + apply union_least; [exact IH2|apply union_subseteq_r].
  - by rewrite record_failed.
  - exact IH.
  - exact IH.
Qed.

Lemma touches_create_task nid k s s' N :
  touches nid k s s' →
  count_events (is_create_task N) (history s')
  = count_events (is_create_task N) (history s).
Proof.
  induction 1 as [s|k s s' o _ IH|k s s' _ IH|k s s' st o e f _ IH
                 |k s s' _ IH|k s s' i _ IH]; simpl; try done.
  - unfold record. destruct (task_recorder s') eqn:E; [|done]. simpl.
    rewrite count_events_app, IH. cbn. lia.
  - rewrite count_events_app, IH. cbn. lia.
  - rewrite count_events_app, IH. cbn. lia.
Qed.

Lemma touches_instantiation nid k s s' N :
  touches nid k s s' →
  count_events (is_instantiation Execution N) (history s')
  = count_events (is_instantiation Execution N) (history s)
    + (if bool_decide (nid = N) then k else 0).
Proof.
  induction 1 as [s|k s s' o _ IH|k s s' _ IH|k s s' st o e f _ IH
                 |k s s' _ IH|k s s' i _ IH]; simpl; try done.
  - destruct (bool_decide (nid = N)); lia.
  - rewrite count_instantiation_record. done.
  - rewrite count_events_app, IH. unfold count_events at 2. cbn.
    destruct (bool_decide (nid = N)); cbn; [|lia].
    rewrite bool_decide_eq_true_2 by done. cbn. lia.
  - rewrite count_events_app, IH. cbn. lia.
Qed.

Lemma touches_invocation nid k s s' N :
  touches nid k s s' → N ≠ nid →
  inputs_of N (history s') = inputs_of N (history s).
Proof.
  intros H Hne.
  induction H as [s|k s s' o _ IH|k s s' _ IH|k s s' st o e f _ IH
                 |k s s' _ IH|k s s' i _ IH]; simpl; try done.
  - by rewrite inputs_of_record.
  - rewrite inputs_of_app, IH. simpl. apply app_nil_r.
  - rewrite inputs_of_app, IH. simpl.
    rewrite bool_decide_eq_false_2 by done. apply app_nil_r.
Qed.
End Touches.

(* ===================================================================== *)
(** ** The scheduler: induction over the tasks that are run *)
(* ===================================================================== *)

(** A relation between executors that holds across the creation of a
    handle and across the whole life of a task (marked running, its
    dependencies awaited, its body run, marked done) holds across
    [await_task]. *)
Section TaskInduction.
Variable isoformat : Z → string.
Variable str : PyVal → string.
Variable create_node : string → string → list (string * PyVal) → Try BaseNode.
Variable R : WorkflowExecutor → WorkflowExecutor → Prop.

Hypothesis R_refl : ∀ s, R s s.
Hypothesis R_trans : ∀ s1 s2 s3, R s1 s2 → R s2 s3 → R s1 s3.
Hypothesis R_handle : ∀ s n,
  is_dependency s n → R s (_get_async_task_for_node_execution s n).
Hypothesis R_finished : ∀ s nid s1 s2 (k : nat) r,
  _node_tasks s !! nid = Some Scheduled →
  R (set_task_state nid Running s) s1 →
  touches nid k s1 s2 → (k ≤ 1)%nat →
  (∀ o, _outputs s !! nid = Some o →
        s2 = set_task_state nid Running s
        ∧ (r = Return o
           ∨ _node_dict s !! nid = None ∧ r = Raise (KeyError nid))) →
  R s (set_task_state nid (Done r) s2).
Hypothesis R_never : ∀ s nid s1,
  _node_tasks s !! nid = Some Scheduled →
  _outputs s !! nid = None →
  R (set_task_state nid Running s) s1 →
  R s s1.

Lemma handle_dependencies s n :
  _dependencies (_get_async_task_for_node_execution s n) = _dependencies s.
Proof.
  unfold _get_async_task_for_node_execution, record.
  destruct (_node_tasks s !! n); [done|]. simpl.
  by destruct (task_recorder s).
Qed.

Lemma handles_rel (nids : list string) s :
  Forall (is_dependency s) nids →
  R s (foldl _get_async_task_for_node_execution s nids).
Proof.
  revert s. induction nids as [|n nids IH]; simpl; intros s Hall; [done|].
  apply Forall_cons in Hall as [Hn Hall].
  eapply R_trans; [by apply R_handle|apply IH].
  eapply Forall_impl; [exact Hall|]. intros m (nid & deps & Hd & Hm).
  exists nid, deps. by rewrite handle_dependencies.
Qed.

Section Await.
Variable await : WorkflowExecutor → string → option (WorkflowExecutor * Awaited).
Hypothesis await_rel : ∀ s n s' r, await s n = Some (s', r) → R s s'.

Lemma await_each_rel nids s s' rs :
  await_each await s nids = Some (s', rs) → R s s'.
Proof.
  revert s rs. induction nids as [|n nids IH]; simpl; intros s rs H.
  - injection H as <- <-. done.
  - destruct (await s n) as [[s1 r]|] eqn:E; [|done]. simpl in H.
    destruct (await_each await s1 nids) as [[s2 rs']|] eqn:E'; [|done].
    simpl in H. injection H as <- <-.
    eapply R_trans; [by eapply await_rel|by eapply IH].
Qed.

Lemma execute_node_rel s nid s' r :
  _node_tasks s !! nid = Some Scheduled →
  _execute_node_with isoformat str create_node await
    (set_task_state nid Running s) nid = Some (s', r) →
  match r with
  | Finished x => R s (set_task_state nid (Done x) s')
  | NeverFinishes => R s s'
  end.
Proof.
  intros Hs. unfold _execute_node_with.
  change (_node_dict (set_task_state nid Running s)) with (_node_dict s).
  change (_outputs (set_task_state nid Running s)) with (_outputs s).
  change (_dependencies (set_task_state nid Running s)) with (_dependencies s).
  destruct (_node_dict s !! nid) as [node|] eqn:Hn.
  2:{ intros [= <- <-].
      eapply (R_finished s nid _ _ 0); [done|apply R_refl|constructor|lia|].
      intros o Ho. split; [done|]. by right. }
  destruct (_outputs s !! nid) as [o|] eqn:Ho.
  { intros [= <- <-].
    eapply (R_finished s nid _ _ 0); [done|apply R_refl|constructor|lia|].
    intros o' Ho'. rewrite Ho in Ho'. injection Ho' as <-.
    split; [done|]. by left. }
  set (deps := elements (default ∅ (_dependencies s !! nid))).
  destruct deps as [|d deps'] eqn:Hdeps.
  { unfold finish. intros [= <- <-].
    destruct (after_gather_touches isoformat str create_node
                (set_task_state nid Running s) node nid [] [])
      as (k & Hk & Ht).
    eapply (R_finished s nid _ _ k); [done|apply R_refl|exact Ht|done|].
    intros o' Ho'. congruence. }
  rewrite <- Hdeps.
  destruct (await_each await _ deps) as [[s1 rs]|] eqn:Ha; [|done]. simpl.
  assert (R (set_task_state nid Running s) s1) as Hdeps_rel.
  { eapply R_trans; [apply (handles_rel deps)|by eapply await_each_rel].
    apply Forall_forall. intros m Hm. unfold deps in Hm.
    apply elem_of_elements in Hm.
    destruct (_dependencies s !! nid) as [ds|] eqn:Hds; [|done].
    by exists nid, ds. }
  destruct (gather rs) as [preds|e|].
  - unfold finish. intros [= <- <-].
    destruct (after_gather_touches isoformat str create_node s1 node nid
                deps preds) as (k & Hk & Ht).
    eapply (R_finished s nid s1 _ k); [done..|].
    intros o' Ho'. congruence.
  - unfold finish. intros [= <- <-].
    eapply (R_finished s nid s1 _ 0); [done|done| |lia|].
    + apply (upstream_failure_touches s1 nid (skipped_msg nid)).
    + intros o' Ho'. congruence.
  - intros [= <- <-]. by eapply R_never.
Qed.
End Await.

Theorem await_task_rel fuel s nid s' r :
  await_task isoformat str create_node fuel s nid = Some (s', r) → R s s'.
Proof.
  revert s nid s' r. induction fuel as [|fuel IH]; simpl; intros s nid s' r H;
    [done|].
  destruct (_node_tasks s !! nid) as [[| |x]|] eqn:Ht.
  - destruct (_execute_node_with _ _ _ _ _ _) as [[s1 r1]|] eqn:E; [|done].
    simpl in H.
    pose proof (execute_node_rel _ IH s nid s1 r1 Ht E) as Hrel.
    destruct r1 as [x|]; injection H as <- <-; exact Hrel.
  - injection H as <- <-. apply R_refl.
  - injection H as <- <-. apply R_refl.
  - injection H as <- <-. apply R_refl.
Qed.

Lemma await_tasks_rel fuel nids s s' rs :
  await_each (await_task isoformat str create_node fuel) s nids
    = Some (s', rs) →
  R s s'.
Proof. apply await_each_rel. intros ? ? ? ?. apply await_task_rel. Qed.
End TaskInduction.

(* ===================================================================== *)
(** ** At-most-once execution *)
(* ===================================================================== *)

Section AtMostOnce.
Variable isoformat : Z → string.
Variable str : PyVal → string.
Variable create_node : string → string → list (string * PyVal) → Try BaseNode.
Variable N : string.

Implicit Types (s : WorkflowExecutor).

Lemma within_budget_refl s : within_budget N 0 s s.
Proof. unfold within_budget. lia. Qed.

Lemma within_budget_trans s1 s2 s3 :
  within_budget N 0 s1 s2 → within_budget N 0 s2 s3 → within_budget N 0 s1 s3.
Proof. unfold within_budget. lia. Qed.

Lemma within_budget_step (d1 d2 : nat) s1 s2 s3 :
  within_budget N d1 s1 s2 → within_budget N d2 s2 s3 →
  within_budget N (d1 + d2) s1 s3.
Proof. unfold within_budget. lia. Qed.

Lemma touches_seed nid k s s' :
  touches nid k s s' →
  count_events (is_instantiation InputSeed N) (history s')
  = count_events (is_instantiation InputSeed N) (history s).
Proof.
  induction 1 as [s|k s s' o _ IH|k s s' _ IH|k s s' st o e f _ IH
                 |k s s' _ IH|k s s' i _ IH]; simpl; try done.
  - by rewrite count_instantiation_record.
  - rewrite count_events_app, IH. unfold count_events at 2. cbn.
    rewrite andb_false_r. cbn. lia.
  - rewrite count_events_app, IH. cbn. lia.
Qed.

Lemma handle_within_budget s n :
  within_budget N 0 s (_get_async_task_for_node_execution s n).
Proof.
  unfold _get_async_task_for_node_execution.
  destruct (_node_tasks s !! n) eqn:Hn; [apply within_budget_refl|].
  unfold within_budget, handle_budget, instance_budget, started, handles_of.
  rewrite record_tasks, record_keys. cbn [add_task _node_tasks _node_tasks_keys].
  rewrite List.filter_app, length_app. cbn [List.filter].
  assert (history (record (create_task n) (add_task n s))
          = history s ++ (if task_recorder s then [Recorder (create_task n)]
                          else [])) as ->.
  { unfold record. simpl. destruct (task_recorder s); simpl; [done|].
    by rewrite app_nil_r. }
  rewrite !count_events_app.
  destruct (decide (n = N)) as [->|Hne].
  - rewrite lookup_insert_eq, Hn, bool_decide_eq_true_2 by done.
    destruct (task_recorder s); cbn; rewrite ?bool_decide_eq_true_2 by done;
      cbn; lia.
  - rewrite lookup_insert_ne, bool_decide_eq_false_2 by done.
    destruct (task_recorder s); cbn; rewrite ?bool_decide_eq_false_2 by done;
      cbn; lia.
Qed.

Lemma running_within_budget s nid :
  _node_tasks s !! nid = Some Scheduled →
  within_budget N 0 s (set_task_state nid Running s)
  ∧ (nid = N →
     (count_events (is_instantiation Execution N)
        (history (set_task_state nid Running s))
        + instance_budget N (set_task_state nid Running s) + 1
      ≤ count_events (is_instantiation Execution N) (history s)
        + instance_budget N s)%nat).
Proof.
  intros Hs.
  unfold within_budget, handle_budget, instance_budget, started, handles_of.
  cbn [set_task_state _node_tasks _node_tasks_keys history].
  destruct (decide (nid = N)) as [->|Hne].
  - rewrite lookup_insert_eq, Hs. split; [lia|]. intros _. lia.
  - rewrite lookup_insert_ne by done. split; [lia|done].
Qed.

Lemma task_within_budget s nid s1 s2 (k : nat) r :
  _node_tasks s !! nid = Some Scheduled →
  within_budget N 0 (set_task_state nid Running s) s1 →
  touches nid k s1 s2 → (k ≤ 1)%nat →
  within_budget N 0 s (set_task_state nid (Done r) s2).
Proof.
  intros Hs H1 Ht Hk.
  destruct (running_within_budget s nid Hs) as [Hrun Hpaid].
  pose proof (touches_create_task _ _ _ _ N Ht) as Hct.
  pose proof (touches_instantiation _ _ _ _ N Ht) as Hin.
  pose proof (touches_seed _ _ _ _ Ht) as Hseed.
  destruct (touches_tasks _ _ _ _ Ht) as (Htasks & Hkeys & _).
  unfold within_budget, handle_budget, instance_budget, started, handles_of
    in *.
  cbn [set_task_state _node_tasks _node_tasks_keys history] in *.
  rewrite Hct, Hin, Hseed, Htasks, Hkeys.
  destruct (decide (nid = N)) as [->|Hne].
  - rewrite lookup_insert_eq in *. rewrite Hs in *.
    rewrite bool_decide_eq_true_2 by done.
    specialize (Hpaid eq_refl).
    destruct (_node_tasks s1 !! N) as [[| |x]|]; lia.
  - rewrite !lookup_insert_ne in * by done.
    rewrite bool_decide_eq_false_2 by done. lia.
Qed.

Theorem await_task_within_budget fuel s nid s' r :
  await_task isoformat str create_node fuel s nid = Some (s', r) →
  within_budget N 0 s s'.
Proof.
  apply (await_task_rel isoformat str create_node (within_budget N 0)).
  - apply within_budget_refl.
  - apply within_budget_trans.
  - intros s0 n _. apply handle_within_budget.
  - intros s0 n s1 s2 k r0 Hs H1 Ht Hk _. by eapply task_within_budget.
  - intros s0 n s1 Hs _ H1.
    eapply within_budget_trans; [|exact H1].
    by apply running_within_budget.
Qed.
End AtMostOnce.

(* ===================================================================== *)
(** ** The stages of [run] *)
(* ===================================================================== *)

Section RunStages.
Variable isoformat : Z → string.
Variable str : PyVal → string.
Variable create_node : string → string → list (string * PyVal) → Try BaseNode.

Implicit Types (s self : WorkflowExecutor).

(** The precomputed-output loop only writes [_outputs], calls the factory
    for schemas and prints warnings. *)
Lemma use_precomputed_effects self nid output self' r :
  use_precomputed create_node self nid output = (self', r) →
  _node_tasks self' = _node_tasks self
  ∧ _node_tasks_keys self' = _node_tasks_keys self
  ∧ workflow self' = workflow self
  ∧ _node_dict self' = _node_dict self
  ∧ ∃ extra, history self' = history self ++ extra
             ∧ Forall (λ e, is_schema_event e = true) extra.
Proof.
  unfold use_precomputed. intros H.
  assert (∀ s e1,
            is_schema_event e1 = true →
            ∃ extra, history (emit e1 s) = history s ++ extra
                     ∧ Forall (λ e, is_schema_event e = true) extra) as One.
  { intros s e1 H1. exists [e1]. split; [done|]. by constructor. }
  assert (∀ s e1 e2,
            is_schema_event e1 = true → is_schema_event e2 = true →
            ∃ extra, history (emit e2 (emit e1 s)) = history s ++ extra
                     ∧ Forall (λ e, is_schema_event e = true) extra) as Two.
  { intros s e1 e2 H1 H2. exists [e1; e2]. simpl.
    split; [by rewrite <- app_assoc|]. by repeat constructor. }
  destruct output as [d|l].
  2:{ injection H as <- <-. repeat split. exists []. by rewrite app_nil_r. }
  destruct (_node_dict self !! nid) as [node|].
  2:{ injection H as <- <-. repeat split. by apply One. }
  destruct (create_node _ _ _) as [inst|e].
  - destruct (output_model inst) as [validate|].
    + destruct (validate d) as [o|]; injection H as <- <-; repeat split.
      * by apply (One self).
      * by apply Two.
    + injection H as <- <-. repeat split. by apply Two.
  - destruct (caught_in_precomputed_loop e); injection H as <- <-;
      repeat split.
    + by apply Two.
    + by apply One.
Qed.

Lemma precomputed_loop_effects items self self' r :
  precomputed_loop create_node self items = (self', r) →
  _node_tasks self' = _node_tasks self
  ∧ _node_tasks_keys self' = _node_tasks_keys self
  ∧ workflow self' = workflow self
  ∧ _node_dict self' = _node_dict self
  ∧ ∃ extra, history self' = history self ++ extra
             ∧ Forall (λ e, is_schema_event e = true) extra.
Proof.
  revert self. induction items as [|[nid output] items IH]; simpl; intros self H.
  { injection H as <- <-. repeat split. exists []. by rewrite app_nil_r. }
  destruct (use_precomputed create_node self nid output) as [s1 [[]|e]] eqn:E.
  - apply use_precomputed_effects in E as (E1 & E2 & E3 & E4 & x1 & E5 & E6).
    apply IH in H as (H1 & H2 & H3 & H4 & x2 & H5 & H6).
    rewrite H1, H2, H3, H4, H5, E5. repeat split; try done.
    exists (x1 ++ x2). split; [by rewrite app_assoc|]. by apply Forall_app.
  - injection H as <- <-. by eapply use_precomputed_effects.
Qed.

Lemma count_schema_events (p : Event → bool) extra :
  (∀ e, is_schema_event e = true → p e = false) →
  Forall (λ e, is_schema_event e = true) extra →
  count_events p extra = 0.
Proof.
  intros Hp. induction 1 as [|e extra He _ IH]; [done|].
  unfold count_events in *. simpl. by rewrite (Hp e He).
Qed.

Lemma pop_outputs_effects (nids : list string) self :
  _node_tasks (foldl pop_output self nids) = _node_tasks self
  ∧ _node_tasks_keys (foldl pop_output self nids) = _node_tasks_keys self
  ∧ history (foldl pop_output self nids) = history self.
Proof.
  revert self. induction nids as [|n nids IH]; simpl; intros self; [done|].
  destruct (IH (pop_output self n)) as (-> & -> & ->). done.
Qed.

(** The sweep writes [_failed_nodes] and [_outputs] and records
    [PENDING]. *)
Lemma sweep_effects pairs self paused self' paused' :
  sweep self paused pairs = Some (self', paused') →
  _node_tasks self' = _node_tasks self
  ∧ _node_tasks_keys self' = _node_tasks_keys self
  ∧ ∀ p : Event → bool,
      (∀ n st o e f, p (Recorder (update_task n st o e f)) = false) →
      count_events p (history self') = count_events p (history self).
Proof.
  revert self paused.
  induction pairs as [|[nid r] pairs IH]; intros self paused H.
  { injection H as <- <-. done. }
  assert (∀ s : WorkflowExecutor,
            sweep (set_output nid None (add_failed nid self)) paused pairs
              = Some (self', paused') →
            _node_tasks self' = _node_tasks self
            ∧ _node_tasks_keys self' = _node_tasks_keys self
            ∧ ∀ p : Event → bool,
                (∀ n st o e f, p (Recorder (update_task n st o e f)) = false) →
                count_events p (history self') = count_events p (history self))
    as Hfailed.
  { intros _ H'. by apply IH in H'. }
  simpl in H. destruct r as [o|e]; [by apply IH in H|].
  destruct e; try (destruct paused as [q|]; [|by apply (Hfailed self)];
    destruct (truthy (Some q) && task_recorder self);
    [|by apply (Hfailed self)];
    destruct (is_downstream self q nid) as [[|]|];
    [|by apply (Hfailed self)|done];
    apply IH in H as (H1 & H2 & H3); repeat split; try done;
    intros p Hp; rewrite (H3 p Hp); simpl;
    rewrite count_events_app; unfold count_events at 2; simpl;
    rewrite Hp; simpl; lia).
  by apply IH in H.
Qed.
End RunStages.

Section AtMostOncePerRun.
Variable isoformat : Z → string.
Variable str : PyVal → string.
Variable create_node : string → string → list (string * PyVal) → Try BaseNode.
Variable N : string.

Implicit Types (s self : WorkflowExecutor).

(** A step that leaves the tasks alone and adds [d] calls of the factory
    for the input node, and no other counted event. *)
Lemma quiet_step s s' (d : nat) :
  _node_tasks s' = _node_tasks s →
  _node_tasks_keys s' = _node_tasks_keys s →
  count_events (is_create_task N) (history s')
    = count_events (is_create_task N) (history s) →
  count_events (is_instantiation Execution N) (history s')
    = count_events (is_instantiation Execution N) (history s) →
  (count_events (is_instantiation InputSeed N) (history s')
   ≤ count_events (is_instantiation InputSeed N) (history s) + d)%nat →
  within_budget N d s s'.
Proof.
  intros Ht Hk H1 H2 H3.
  unfold within_budget, handle_budget, instance_budget, started, handles_of.
  rewrite Ht, Hk, H1, H2. lia.
Qed.

Lemma precomputed_loop_quiet items self self' r :
  precomputed_loop create_node self items = (self', r) →
  within_budget N 0 self self'.
Proof.
  intros H. apply precomputed_loop_effects in H
    as (Ht & Hk & _ & _ & extra & Hh & Hx).
  apply quiet_step; try done.
  - rewrite Hh, count_events_app, (count_schema_events _ extra); [lia| |done].
    by intros [c|n [| |]|n u i|n].
  - rewrite Hh, count_events_app, (count_schema_events _ extra); [lia| |done].
    intros [c|n [| |]|n u i|n]; try done. intros _. simpl.
    apply andb_false_r.
  - rewrite Hh, count_events_app, (count_schema_events _ extra); [lia| |done].
    intros [c|n [| |]|n u i|n]; try done. intros _. simpl.
    apply andb_false_r.
Qed.

Lemma handles_within_budget (nids : list string) s :
  within_budget N 0 s (foldl _get_async_task_for_node_execution s nids).
Proof.
  revert s. induction nids as [|n nids IH]; simpl; intros s.
  - apply within_budget_refl.
  - eapply within_budget_trans; [apply handle_within_budget|apply IH].
Qed.

Lemma await_tasks_within_budget fuel nids s s' rs :
  await_each (await_task isoformat str create_node fuel) s nids
    = Some (s', rs) →
  within_budget N 0 s s'.
Proof.
  apply await_each_rel.
  - apply within_budget_refl.
  - apply within_budget_trans.
  - intros ? ? ? ?. apply await_task_within_budget.
Qed.

Lemma sweep_and_return_quiet self results self' r :
  sweep_and_return self results = (self', r) →
  within_budget N 0 self self'.
Proof.
  unfold sweep_and_return.
  destruct (sweep self None _) as [[s1 paused]|] eqn:E.
  2:{ intros [= <- <-]. apply within_budget_refl. }
  apply sweep_effects in E as (Ht & Hk & Hc).
  intros H. assert (self' = s1) as -> by (by destruct (pause_to_raise _ _);
    injection H as <- <-).
  apply quiet_step; try done; rewrite Hc; try done. lia.
Qed.

Lemma seed_within_budget s nid (input : gmap string PyVal) :
  within_budget N 1 s
    (emit (Factory nid InputSeed) (set_initial_input nid input s)).
Proof.
  apply quiet_step; try done; simpl; rewrite count_events_app.
  - cbn. lia.
  - unfold count_events at 2. cbn. rewrite andb_false_r. cbn. lia.
  - unfold count_events at 2. cbn.
    destruct (bool_decide (nid = N) && _); simpl; lia.
Qed.

Lemma seed_invocation_quiet s nid input :
  within_budget N 0 s (emit (Invoke nid InputSeed input) s).
Proof.
  apply quiet_step; try done; simpl; rewrite count_events_app; cbn; lia.
Qed.

Lemma seed_output_quiet s nid o (nids : list string) :
  within_budget N 0 s (foldl pop_output (set_output nid o s) nids).
Proof.
  destruct (pop_outputs_effects nids (set_output nid o s)) as (Ht & Hk & Hh).
  apply quiet_step; rewrite ?Ht, ?Hk, ?Hh; try done. simpl. lia.
Qed.

Lemma run_body_within_budget fuel self input node_ids precomputed self' r :
  run_body isoformat str create_node fuel self input node_ids precomputed
    = Some (self', r) →
  within_budget N 1 self self'.
Proof.
  unfold run_body.
  destruct (precomputed_loop _ _ _) as [s1 [[]|e]] eqn:Epre;
    apply (precomputed_loop_quiet _ _ _ _) in Epre.
  2:{ intros [= <- <-].
      apply (within_budget_step N 0 1 _ _ _ Epre), quiet_step; done || lia. }
  destruct (List.find _ _) as [input_node|].
  2:{ intros [= <- <-].
      apply (within_budget_step N 0 1 _ _ _ Epre), quiet_step; done || lia. }
  pose proof (within_budget_step N 0 1 _ _ _ Epre
                (seed_within_budget s1 (node_id input_node) input)) as H2.
  simpl in H2.
  destruct (create_node _ _ _) as [obj|e]; [|by intros [= <- <-]].
  pose proof (within_budget_step N 1 0 _ _ _ H2
                (seed_invocation_quiet _ (node_id input_node)
                   (InValue <$> input))) as H3.
  simpl in H3.
  destruct (call obj _) as [output|e]; [|by intros [= <- <-]].
  match goal with
  | |- context [foldl pop_output ?s ?l] =>
      pose proof (within_budget_step N 1 0 _ _ _ H3
                    (seed_output_quiet _ (node_id input_node) (Some output) l))
        as H4
  end.
  simpl in H4.
  match goal with
  | |- context [foldl _get_async_task_for_node_execution ?s ?l] =>
      pose proof (within_budget_step N 1 0 _ _ _ H4
                    (handles_within_budget l s)) as H5
  end.
  simpl in H5.
  destruct (await_each _ _ _) as [[s7 rs]|] eqn:Ha; [|done]. simpl.
  apply await_tasks_within_budget in Ha.
  pose proof (within_budget_step N 1 0 _ _ _ H5 Ha) as H7. simpl in H7.
  destruct (all_finished rs) as [results|]; [|by intros [= <- <-]].
  destruct (sweep_and_return s7 results) as [s8 res] eqn:Es.
  intros [= <- <-]. apply sweep_and_return_quiet in Es.
  apply (within_budget_step N 1 0 _ _ _ H7 Es).
Qed.

Lemma run_state fuel self input node_ids precomputed self' r :
  run isoformat str create_node fuel self input node_ids precomputed
    = Some (self', r) →
  ∃ r', run_body isoformat str create_node fuel self input node_ids
          precomputed = Some (self', r').
Proof.
  unfold run.
  destruct (run_body _ _ _ _ _ _ _ _) as [[s [o|e|]]|]; try by eauto.
  destruct e; intros [= <- <-]; eauto.
Qed.

(** C1, as the code has it.  Over one run, for every node id [N]: the
    recorder's [create_task(N, ...)] is called at most once, at most one
    handle is created for [N] (the lookup is idempotent), and
    [_execute_node] calls the factory for [N] at most once.  Besides, [run]
    itself calls the factory once for the input node, whose instance it
    invokes to seed [_outputs]. *)
Theorem at_most_once_per_run
    fuel self input node_ids precomputed self' r :
  run isoformat str create_node fuel self input node_ids precomputed
    = Some (self', r) →
  (count_events (is_create_task N) (history self')
   ≤ count_events (is_create_task N) (history self) + 1)%nat
  ∧ (handles_of N self' ≤ handles_of N self + 1)%nat
  ∧ (count_events (is_instantiation Execution N) (history self')
     ≤ count_events (is_instantiation Execution N) (history self) + 1)%nat
  ∧ (count_events (is_instantiation InputSeed N) (history self')
     ≤ count_events (is_instantiation InputSeed N) (history self) + 1)%nat
  ∧ ∀ s nid,
      _get_async_task_for_node_execution
        (_get_async_task_for_node_execution s nid) nid
      = _get_async_task_for_node_execution s nid.
Proof.
  intros H. apply run_state in H as [r' H].
  apply run_body_within_budget in H as (H1 & H2 & H3 & H4).
  unfold handle_budget, instance_budget in *.
  repeat split.
  - destruct (_node_tasks self !! N), (_node_tasks self' !! N); lia.
  - destruct (_node_tasks self !! N), (_node_tasks self' !! N); lia.
  - destruct (started self N), (started self' N); lia.
  - exact H4.
  - intros s nid. unfold _get_async_task_for_node_execution at 1.
    destruct (_node_tasks (_get_async_task_for_node_execution s nid) !! nid)
      eqn:E; [done|].
    unfold _get_async_task_for_node_execution in E.
    destruct (_node_tasks s !! nid) eqn:E'; [congruence|].
    rewrite record_tasks in E. simpl in E. by rewrite lookup_insert_eq in E.
Qed.
End AtMostOncePerRun.

(** An instance of the theorem: the run of [linear] on a fresh executor.
    Each of the three nodes gets one [create_task] call, one handle and
    one instantiation by [_execute_node]. *)
Lemma at_most_once_witness :
  ∃ self outputs,
    Scenarios.run_on Scenarios.linear [] ∅ = Some (self, RunReturn outputs)
    ∧ map (λ n, (count_events (is_create_task n) (history self),
                 handles_of n self,
                 count_events (is_instantiation Execution n) (history self)))
          ["input"; "a"; "b"]
      = [(1, 1, 1); (1, 1, 1); (1, 1, 1)]
    ∧ (count_events (is_create_task "a") (history self) ≤ 0 + 1)%nat.
Proof.
  eexists _, _. split; [vm_compute; reflexivity|]. split.
  - vm_compute. reflexivity.
  - refine (proj1 (at_most_once_per_run Scenarios.iso Scenarios.key_str
                     Scenarios.factory "a" 10
                     (Scenarios.executor Scenarios.linear) Scenarios.question
                     [] ∅ _ _ _)).
    vm_compute. reflexivity.
Defined.

(** C1 fails as stated.  In the run of [linear] the factory is called
    twice to instantiate the input node, schema validation apart: once by
    [run], which invokes that instance on the input, and once by
    [_execute_node], which invokes the second instance. *)
Lemma at_most_once_counterexample :
  ∃ self outputs,
    Scenarios.run_on Scenarios.linear [] ∅ = Some (self, RunReturn outputs)
    ∧ count_events (is_instantiation SchemaOnly "input") (history self) = 0
    ∧ count_events (is_instantiation InputSeed "input") (history self) = 1
    ∧ count_events (is_instantiation Execution "input") (history self) = 1
    ∧ count_events (is_invocation InputSeed "input") (history self) = 1
    ∧ count_events (is_invocation Execution "input") (history self) = 1.
Proof.
  eexists _, _. split; [vm_compute; reflexivity|].
  repeat split; vm_compute; reflexivity.
Qed.

(* ===================================================================== *)
(** ** A run without an input node *)
(* ===================================================================== *)

Section NoInputNode.
Variable isoformat : Z → string.
Variable str : PyVal → string.
Variable create_node : string → string → list (string * PyVal) → Try BaseNode.

Lemma find_nothing {A : Type} (f : A → bool) (l : list A) :
  (∀ x, x ∈ l → f x = false) → List.find f l = None.
Proof.
  induction l as [|a l IH]; simpl; intros H; [done|].
  rewrite (H a) by left. apply IH. intros x Hx. apply H. by right.
Qed.

(** C10, as the code has it.  When no node of the definition has
    [node_type == "InputNode"] and a [parent_id] that is null or empty,
    [run] raises before any handle is created and before any node is
    invoked; up to there it has only called the factory for schemas and
    printed warnings in the precomputed-output loop.  If that loop raised,
    its exception is the one raised.  Otherwise the unguarded [next()]
    raises [StopIteration] in the body of [run], which, [run] being a
    coroutine, reaches the caller as [RuntimeError]; this is the case
    whenever [precomputed_outputs] is empty. *)
Theorem run_without_input_node fuel self input node_ids precomputed :
  (∀ node, node ∈ nodes (workflow self) → is_top_level_input node = false) →
  ∃ self' e extra,
    run_body isoformat str create_node fuel self input node_ids precomputed
      = Some (self', RunRaise e)
    ∧ _node_tasks self' = _node_tasks self
    ∧ _node_tasks_keys self' = _node_tasks_keys self
    ∧ history self' = history self ++ extra
    ∧ Forall (λ ev, is_schema_event ev = true) extra
    ∧ (precomputed_loop create_node self (map_to_list precomputed)
         = (self', Raise e)
       ∨ precomputed_loop create_node self (map_to_list precomputed)
           = (self', Return ())
         ∧ e = StopIteration
         ∧ run isoformat str create_node fuel self input node_ids precomputed
           = Some (self',
                   RunRaise (RuntimeError "coroutine raised StopIteration")))
    ∧ (precomputed = ∅ → self' = self ∧ e = StopIteration).
Proof.
  intros Hnone. apply find_nothing in Hnone.
  unfold run, run_body.
  destruct (precomputed_loop create_node self (map_to_list precomputed))
    as [s1 [[]|e]] eqn:Epre;
    destruct (precomputed_loop_effects _ _ _ _ _ Epre)
      as (Ht & Hk & Hw & _ & extra & Hh & Hx).
  - rewrite Hw, Hnone. exists s1, StopIteration, extra.
    split; [done|]. split; [done|]. split; [done|]. split; [done|].
    split; [done|]. split; [right; done|].
    intros ->. rewrite map_to_list_empty in Epre. by injection Epre as <-.
  - exists s1, e, extra.
    split; [done|]. split; [done|]. split; [done|]. split; [done|].
    split; [done|]. split; [by left|].
    intros ->. rewrite map_to_list_empty in Epre. done.
Qed.
End NoInputNode.

(** An instance of the theorem: [no_input] run without precomputed
    outputs. *)
Lemma run_without_input_node_witness :
  run_body Scenarios.iso Scenarios.key_str Scenarios.factory 10
    (Scenarios.executor Scenarios.no_input) Scenarios.question [] ∅
  = Some (Scenarios.executor Scenarios.no_input, RunRaise StopIteration).
Proof.
  destruct (run_without_input_node Scenarios.iso Scenarios.key_str
              Scenarios.factory 10 (Scenarios.executor Scenarios.no_input)
              Scenarios.question [] ∅)
    as (self' & e & extra & Hrun & _ & _ & _ & _ & _ & Hempty).
  - intros node Hn. apply list_elem_of_In in Hn. simpl in Hn.
    destruct Hn as [<-|[<-|[]]]; reflexivity.
  - destruct (Hempty eq_refl) as [-> ->]. exact Hrun.
Defined.

(** C10 fails as stated.  The input node of [empty_parent_input] has a
    [parent_id] that is not null, so the definition has no input node with
    a null [parent_id]; but the empty string counts as no parent, the node
    is found and [run] returns.  In [no_input], a precomputed output for a
    node whose type the factory does not know makes [run] raise the
    factory's [ValueError], not [StopIteration]; and without precomputed
    outputs, what the caller of the coroutine [run] receives is a
    [RuntimeError]. *)
Lemma run_without_input_node_counterexample :
  (Forall (λ n, ¬ (node_type n = "InputNode" ∧ parent_id n = None))
          (nodes Scenarios.empty_parent_input)
   ∧ ∃ self outputs,
       Scenarios.run_on Scenarios.empty_parent_input [] ∅
       = Some (self, RunReturn outputs)
       ∧ dom outputs = {[ "input"; "a" ]})
  ∧ (∃ self,
       Scenarios.run_on Scenarios.no_input []
         {[ "u" := PrecomputedDict [] ]}
       = Some (self, RunRaise (ValueError "node type is not registered")))
  ∧ Scenarios.run_on Scenarios.no_input [] ∅
    = Some (Scenarios.executor Scenarios.no_input,
            RunRaise (RuntimeError "coroutine raised StopIteration")).
Proof.
  split; [split|split].
  - repeat constructor; simpl; intros [? ?]; congruence.
  - eexists _, _. split; vm_compute; reflexivity.
  - eexists. vm_compute. reflexivity.
  - vm_compute. reflexivity.
Qed.

(* ===================================================================== *)
(** ** Precomputed outputs *)
(* ===================================================================== *)

Section TasksGrow.
Variable isoformat : Z → string.
Variable str : PyVal → string.
Variable create_node : string → string → list (string * PyVal) → Try BaseNode.

Implicit Types (s self : WorkflowExecutor).

Lemma tasks_grow_refl s : tasks_grow s s.
Proof. split; [exists []; by rewrite app_nil_r|done]. Qed.

Lemma tasks_grow_trans s1 s2 s3 :
  tasks_grow s1 s2 → tasks_grow s2 s3 → tasks_grow s1 s3.
Proof.
  intros [[m1 H1] D1] [[m2 H2] D2]. split; [|auto].
  exists (m1 ++ m2). by rewrite H2, H1, app_assoc.
Qed.

Lemma handle_tasks_grow s n :
  tasks_grow s (_get_async_task_for_node_execution s n).
Proof.
  unfold _get_async_task_for_node_execution.
  destruct (_node_tasks s !! n) eqn:Hn; [apply tasks_grow_refl|].
  split; rewrite ?record_keys, ?record_tasks; simpl; [by eexists|].
  intros k x Hk. rewrite lookup_insert_ne; [done|congruence].
Qed.

Lemma task_tasks_grow s nid s1 s2 (k : nat) st :
  _node_tasks s !! nid = Some Scheduled →
  tasks_grow (set_task_state nid Running s) s1 →
  touches nid k s1 s2 →
  tasks_grow s (set_task_state nid st s2).
Proof.
  intros Hs [[more Hk] Hd] Ht.
  destruct (touches_tasks _ _ _ _ Ht) as (Htasks & Hkeys & _).
  split; simpl.
  - exists more. by rewrite Hkeys, Hk.
  - intros j x Hj. assert (j ≠ nid) as Hne by congruence.
    rewrite lookup_insert_ne, Htasks by done. apply Hd. simpl.
    by rewrite lookup_insert_ne.
Qed.

Lemma await_task_tasks_grow fuel s nid s' r :
  await_task isoformat str create_node fuel s nid = Some (s', r) →
  tasks_grow s s'.
Proof.
  apply (await_task_rel isoformat str create_node tasks_grow).
  - apply tasks_grow_refl.
  - apply tasks_grow_trans.
  - intros s0 n _. apply handle_tasks_grow.
  - intros s0 n s1 s2 k r0 Hs H1 Ht _ _. by eapply task_tasks_grow.
  - intros s0 n s1 Hs _ H1.
    destruct H1 as [[more Hk] Hd]. split; [by exists more|].
    intros j x Hj. assert (j ≠ n) as Hne by congruence.
    apply Hd. simpl. by rewrite lookup_insert_ne.
Qed.

Lemma await_task_done fuel s nid s' x :
  await_task isoformat str create_node fuel s nid = Some (s', Finished x) →
  _node_tasks s' !! nid = Some (Done x).
Proof.
  destruct fuel as [|fuel]; simpl; [done|].
  destruct (_node_tasks s !! nid) as [[| |y]|] eqn:Ht; try done.
  - destruct (_execute_node_with _ _ _ _ _ _) as [[s1 [y|]]|]; simpl; try done.
    intros [= <- <-]. simpl. apply lookup_insert_eq.
  - intros [= <- <-]. done.
Qed.

Lemma await_each_done fuel nids s s' rs results :
  await_each (await_task isoformat str create_node fuel) s nids
    = Some (s', rs) →
  all_finished rs = Some results →
  Forall2 (λ k res, _node_tasks s' !! k = Some (Done res)) nids results.
Proof.
  revert s rs results. induction nids as [|n nids IH]; simpl;
    intros s rs results H Hfin.
  { injection H as <- <-. injection Hfin as <-. constructor. }
  destruct (await_task _ _ _ fuel s n) as [[s1 r]|] eqn:E; [|done].
  simpl in H.
  destruct (await_each _ s1 nids) as [[s2 rs']|] eqn:E'; [|done].
  simpl in H. injection H as <- <-.
  destruct r as [x|]; [|done]. simpl in Hfin.
  destruct (all_finished rs') as [results'|] eqn:Hfin'; [|done].
  injection Hfin as <-. constructor; [|by eapply IH].
  apply await_task_done in E.
  assert (tasks_grow s1 s2) as [_ Hd].
  { eapply (await_each_rel tasks_grow);
      [apply tasks_grow_refl|apply tasks_grow_trans| |exact E'].
    intros ? ? ? ?. apply await_task_tasks_grow. }
  by apply Hd.
Qed.
End TasksGrow.

Section SkipsPrecomputed.
Variable isoformat : Z → string.
Variable str : PyVal → string.
Variable create_node : string → string → list (string * PyVal) → Try BaseNode.
Variable M : string.
Variable node : WorkflowNodeSchema.
Variable v : BaseNodeOutput.

Implicit Types (s self : WorkflowExecutor).

Local Abbreviation keeps := (keeps_precomputed M node v).
Local Abbreviation skips := (skips_precomputed M node v).

Lemma skips_refl s : skips s s.
Proof. by intros H. Qed.

Lemma skips_trans s1 s2 s3 : skips s1 s2 → skips s2 s3 → skips s1 s3.
Proof.
  intros H12 H23 H1. destruct (H12 H1) as (H2 & C2 & I2).
  destruct (H23 H2) as (H3 & C3 & I3). split; [done|]. split; congruence.
Qed.

(** A step that leaves [_node_dict] and the entries of [M] in [_outputs]
    and [_node_tasks] alone, and adds no event of the execution of [M]. *)
Lemma skips_quiet s s' :
  _outputs s' !! M = _outputs s !! M →
  _node_dict s' = _node_dict s →
  _node_tasks s' !! M = _node_tasks s !! M →
  count_events (is_instantiation Execution M) (history s')
    = count_events (is_instantiation Execution M) (history s) →
  inputs_of M (history s') = inputs_of M (history s) →
  skips s s'.
Proof.
  intros Ho Hd Ht Hc Hi (K1 & K2 & K3 & K4).
  split; [|done]. unfold keeps_precomputed. by rewrite Ho, Hd, Ht.
Qed.

Lemma handle_skips s n : skips s (_get_async_task_for_node_execution s n).
Proof.
  unfold _get_async_task_for_node_execution.
  destruct (_node_tasks s !! n) eqn:Hn; [apply skips_refl|].
  intros (K1 & K2 & K3 & K4).
  assert (history (record (create_task n) (add_task n s))
          = history s ++ (if task_recorder s then [Recorder (create_task n)]
                          else [])) as Hh.
  { unfold record. simpl. destruct (task_recorder s); simpl; [done|].
    by rewrite app_nil_r. }
  split; [|split].
  - assert (_node_dict (record (create_task n) (add_task n s))
            = _node_dict s) as Hd
      by (unfold record; simpl; by destruct (task_recorder s)).
    unfold keeps_precomputed. rewrite record_outputs, record_tasks, Hd.
    cbn [add_task _outputs _node_tasks].
    split; [done|]. split; [done|].
    destruct (decide (n = M)) as [->|Hne].
    + rewrite lookup_insert_eq. split; [done|]. by intros x.
    + rewrite lookup_insert_ne by done. done.
  - rewrite Hh, count_events_app. destruct (task_recorder s); cbn; lia.
  - rewrite Hh, inputs_of_app. destruct (task_recorder s); simpl;
      by rewrite app_nil_r.
Qed.

Lemma running_other_keeps s nid :
  nid ≠ M → keeps s → keeps (set_task_state nid Running s).
Proof.
  intros Hne (K1 & K2 & K3 & K4). unfold keeps_precomputed. simpl.
  by rewrite lookup_insert_ne.
Qed.

Lemma task_skips s nid s1 s2 (k : nat) r :
  _node_tasks s !! nid = Some Scheduled →
  skips (set_task_state nid Running s) s1 →
  touches nid k s1 s2 →
  (∀ o, _outputs s !! nid = Some o →
        s2 = set_task_state nid Running s
        ∧ (r = Return o
           ∨ _node_dict s !! nid = None ∧ r = Raise (KeyError nid))) →
  skips s (set_task_state nid (Done r) s2).
Proof.
  intros Hs H1 Ht Hmemo Hk. pose proof Hk as (K1 & K2 & K3 & K4).
  destruct (decide (nid = M)) as [->|Hne].
  - destruct (Hmemo _ K1) as [-> [->|[Hnone _]]]; [|congruence].
    split; [|done]. unfold keeps_precomputed. simpl.
    rewrite lookup_insert_eq. repeat split; try done. by intros x [= <-].
  - destruct (H1 (running_other_keeps s nid Hne Hk))
      as ((J1 & J2 & J3 & J4) & C1 & I1).
    destruct (touches_tasks _ _ _ _ Ht) as (Htasks & _ & Hdict & _).
    split; [|split].
    + unfold keeps_precomputed. simpl. rewrite lookup_insert_ne by done.
      rewrite (touches_other_output _ _ _ _ M Ht) by done.
      by rewrite Htasks, Hdict.
    + simpl. rewrite (touches_instantiation _ _ _ _ M Ht).
      rewrite bool_decide_eq_false_2 by done. simpl in C1. lia.
    + simpl. rewrite (touches_invocation _ _ _ _ M Ht) by done. exact I1.
Qed.

Lemma await_task_skips fuel s nid s' r :
  await_task isoformat str create_node fuel s nid = Some (s', r) →
  skips s s'.
Proof.
  apply (await_task_rel isoformat str create_node skips).
  - apply skips_refl.
  - apply skips_trans.
  - intros s0 n _. apply handle_skips.
  - intros s0 n s1 s2 k r0 Hs H1 Ht _ Hmemo. by eapply task_skips.
  - intros s0 n s1 Hs Hnone H1 Hk.
    assert (n ≠ M) as Hne.
    { intros ->. destruct Hk as (K1 & _). congruence. }
    apply H1. by apply running_other_keeps.
Qed.

Lemma await_tasks_skips fuel nids s s' rs :
  await_each (await_task isoformat str create_node fuel) s nids
    = Some (s', rs) →
  skips s s'.
Proof.
  apply await_each_rel; [apply skips_refl|apply skips_trans|].
  intros ? ? ? ?. apply await_task_skips.
Qed.

Lemma handles_skips (nids : list string) s :
  skips s (foldl _get_async_task_for_node_execution s nids).
Proof.
  revert s. induction nids as [|n nids IH]; simpl; intros s.
  - apply skips_refl.
  - eapply skips_trans; [apply handle_skips|apply IH].
Qed.
End SkipsPrecomputed.

Section PrecomputedRun.
Variable isoformat : Z → string.
Variable str : PyVal → string.
Variable create_node : string → string → list (string * PyVal) → Try BaseNode.
Variable M : string.
Variable d : list (string * PyVal).
Variable node : WorkflowNodeSchema.
Variable node_instance : BaseNode.
Variable model_validate : list (string * PyVal) → option BaseNodeOutput.
Variable v : BaseNodeOutput.

Hypothesis factory_returns :
  create_node (title node) (node_type node) (config node) = Return node_instance.
Hypothesis has_output_model : output_model node_instance = Some model_validate.
Hypothesis validates : model_validate d = Some v.

Implicit Types (s self : WorkflowExecutor).

Local Abbreviation keeps := (keeps_precomputed M node v).
Local Abbreviation skips := (skips_precomputed M node v).

Lemma use_precomputed_hit self :
  _node_dict self !! M = Some node →
  use_precomputed create_node self M (PrecomputedDict d)
  = (set_output M (Some v) (emit (Factory M SchemaOnly) self), Return ()).
Proof.
  intros Hn. unfold use_precomputed.
  by rewrite Hn, factory_returns, has_output_model, validates.
Qed.

Lemma use_precomputed_other self nid output self' r :
  nid ≠ M →
  use_precomputed create_node self nid output = (self', r) →
  _outputs self' !! M = _outputs self !! M.
Proof.
  intros Hne. unfold use_precomputed.
  destruct output as [d'|l]; [|by intros [= <- <-]].
  destruct (_node_dict self !! nid) as [n|]; [|by intros [= <- <-]].
  destruct (create_node (title n) (node_type n) (config n)) as [inst|e].
  - destruct (output_model inst) as [validate|]; [|by intros [= <- <-]].
    destruct (validate d') as [o|]; intros [= <- <-]; simpl; [|done].
    by apply lookup_insert_ne.
  - destruct (caught_in_precomputed_loop e); by intros [= <- <-].
Qed.

Lemma precomputed_loop_other items self self' r :
  M ∉ items.*1 →
  precomputed_loop create_node self items = (self', r) →
  _outputs self' !! M = _outputs self !! M.
Proof.
  revert self. induction items as [|[nid output] items IH]; simpl;
    intros self Hnot H; [by injection H as <- <-|].
  apply not_elem_of_cons in Hnot as [Hne Hnot].
  destruct (use_precomputed create_node self nid output) as [s1 [[]|e]] eqn:E.
  - rewrite (IH _ Hnot H). by eapply use_precomputed_other.
  - injection H as <- <-. by eapply use_precomputed_other.
Qed.

Lemma precomputed_loop_hit items self self' :
  NoDup items.*1 → (M, PrecomputedDict d) ∈ items →
  _node_dict self !! M = Some node →
  precomputed_loop create_node self items = (self', Return ()) →
  _outputs self' !! M = Some (Some v).
Proof.
  revert self. induction items as [|[nid output] items IH]; simpl;
    intros self Hnd Hin Hn H; [by apply elem_of_nil in Hin|].
  apply NoDup_cons in Hnd as [Hfresh Hnd].
  apply elem_of_cons in Hin as [Heq|Hin].
  - assert (nid = M ∧ output = PrecomputedDict d) as [-> ->]
      by (split; congruence).
    rewrite (use_precomputed_hit self Hn) in H.
    rewrite (precomputed_loop_other _ _ _ _ Hfresh H). simpl.
    apply lookup_insert_eq.
  - destruct (use_precomputed create_node self nid output) as [s1 [[]|e]] eqn:E;
      [|done].
    apply (IH s1); try done.
    apply use_precomputed_effects in E as (_ & _ & _ & -> & _). done.
Qed.

Lemma inputs_of_schema_events extra :
  Forall (λ e, is_schema_event e = true) extra → inputs_of M extra = [].
Proof.
  induction 1 as [|e extra He _ IH]; [done|].
  destruct e as [c|n [| |]|n u i|n]; simpl in *; done.
Qed.

Lemma discard_children_subset (ns : list WorkflowNodeSchema)
    (start : gset string) nid :
  nid ∈ foldl (λ (s : gset string) n,
                 if truthy (parent_id n) then s ∖ {[node_id n]} else s)
              start ns →
  nid ∈ start.
Proof.
  revert start. induction ns as [|n ns IH]; simpl; intros start Hin; [done|].
  apply IH in Hin. destruct (truthy (parent_id n)); [|done].
  by apply elem_of_difference in Hin as [? _].
Qed.

Lemma nodes_to_run_requested self (node_ids : list string) nid :
  node_ids ≠ [] → nid ∈ nodes_to_run self node_ids → nid ∈ node_ids.
Proof.
  intros Hne Hin. unfold nodes_to_run in Hin.
  apply discard_children_subset in Hin.
  destruct node_ids as [|n0 ids]; [done|].
  by apply elem_of_list_to_set in Hin.
Qed.

Lemma pop_outputs_other (nids : list string) self :
  M ∉ nids →
  _outputs (foldl pop_output self nids) !! M = _outputs self !! M
  ∧ _node_dict (foldl pop_output self nids) = _node_dict self.
Proof.
  revert self. induction nids as [|n nids IH]; simpl; intros self Hnot; [done|].
  apply not_elem_of_cons in Hnot as [Hne Hnot].
  destruct (IH (pop_output self n) Hnot) as [-> ->]. simpl.
  by rewrite lookup_delete_ne.
Qed.

(** The sweep leaves the output of a node alone unless its task raised. *)
Lemma sweep_other pairs self paused self' paused' :
  Forall (λ p : string * Try (option BaseNodeOutput),
            p.1 = M → ∃ o, p.2 = Return o) pairs →
  sweep self paused pairs = Some (self', paused') →
  _outputs self' !! M = _outputs self !! M
  ∧ _node_dict self' = _node_dict self
  ∧ inputs_of M (history self') = inputs_of M (history self).
Proof.
  revert self paused.
  induction pairs as [|[nid r] pairs IH]; intros self paused Hall H.
  { by injection H as <- <-. }
  apply Forall_cons in Hall as [Hhead Hall]. simpl in Hhead.
  destruct r as [o|e]; [by apply (IH _ _ Hall) in H|].
  assert (nid ≠ M) as Hne.
  { intros ->. by destruct (Hhead eq_refl). }
  assert (sweep (set_output nid None (add_failed nid self)) paused pairs
            = Some (self', paused') →
          _outputs self' !! M = _outputs self !! M
          ∧ _node_dict self' = _node_dict self
          ∧ inputs_of M (history self') = inputs_of M (history self))
    as Hfailed.
  { intros H'. apply (IH _ _ Hall) in H' as (-> & -> & ->). simpl.
    by rewrite lookup_insert_ne. }
  simpl in H.
  destruct e; try (destruct paused as [q|]; [|by apply Hfailed];
    destruct (truthy (Some q) && task_recorder self); [|by apply Hfailed];
    destruct (is_downstream self q nid) as [[|]|]; [|by apply Hfailed|done];
    apply (IH _ _ Hall) in H as (-> & -> & ->); simpl;
    by rewrite inputs_of_app, app_nil_r).
  by apply (IH _ _ Hall) in H.
Qed.

Lemma zip_aligned {A B : Type} (P : A → B → Prop) (ks more : list A)
    (results : list B) :
  Forall2 P ks results →
  Forall (λ p, P p.1 p.2) (zip (ks ++ more) results).
Proof.
  induction 1 as [|k r ks results Hkr _ IH]; simpl.
  - destruct more; constructor.
  - constructor; done.
Qed.

Lemma invalid_precomputed_is_skipped s nid d0 node0 instance0 validate0 :
  _node_dict s !! nid = Some node0 →
  create_node (title node0) (node_type node0) (config node0)
    = Return instance0 →
  output_model instance0 = Some validate0 → validate0 d0 = None →
  use_precomputed create_node s nid (PrecomputedDict d0)
  = (emit (Warning nid) (emit (Factory nid SchemaOnly) s), Return ()).
Proof.
  intros H1 H2 H3 H4. unfold use_precomputed. by rewrite H1, H2, H3, H4.
Qed.

End PrecomputedRun.


(* ===================================================================== *)
(** ** Termination: every task is brought to an end *)
(* ===================================================================== *)

(** A task that is awaited is marked running before its dependencies are
    awaited, and a running task is never run again: the number of
    candidates that have not begun to run bounds the depth of the
    recursion. *)
Section Termination.
Variable isoformat : Z → string.
Variable str : PyVal → string.
Variable create_node : string → string → list (string * PyVal) → Try BaseNode.
Variable candidates : gset string.

Implicit Types (s self : WorkflowExecutor).

Local Abbreviation await_task := (await_task isoformat str create_node).

Lemma is_dependency_ids s n : is_dependency s n ↔ n ∈ dependency_ids s.
Proof.
  unfold is_dependency, dependency_ids. rewrite elem_of_union_list. split.
  - intros (nid & deps & Hd & Hn). exists deps. split; [|done].
    apply list_elem_of_fmap. exists (nid, deps). split; [done|].
    by apply elem_of_map_to_list.
  - intros (deps & Hd & Hn).
    apply list_elem_of_fmap in Hd as ([nid ds] & -> & Hd).
    apply elem_of_map_to_list in Hd. by exists nid, ds.
Qed.

Lemma progresses_refl s : progresses candidates s s.
Proof. by intros H. Qed.

Lemma progresses_trans s1 s2 s3 :
  progresses candidates s1 s2 → progresses candidates s2 s3 →
  progresses candidates s1 s3.
Proof.
  intros H12 H23 H1. destruct (H12 H1) as (H2 & Hd2 & Hs2).
  destruct (H23 H2) as (H3 & Hd3 & Hs3).
  split; [done|]. split; [congruence|]. intros n Hn. by apply Hs3, Hs2.
Qed.

Lemma started_set_task s nid st n :
  started s n = true → st ≠ Scheduled →
  started (set_task_state nid st s) n = true.
Proof.
  unfold started. simpl. intros Hn Hst.
  destruct (decide (n = nid)) as [->|Hne].
  - rewrite lookup_insert_eq. by destruct st.
  - by rewrite lookup_insert_ne.
Qed.

Lemma within_set_task s nid st :
  nid ∈ candidates → within candidates s →
  within candidates (set_task_state nid st s).
Proof.
  intros Hnid [Ht Hd]. split; [|done]. simpl. rewrite dom_insert.
  apply union_least; [|done]. by apply singleton_subseteq_l.
Qed.

Lemma handle_progresses s n :
  is_dependency s n →
  progresses candidates s (_get_async_task_for_node_execution s n).
Proof.
  intros Hdep [Ht Hd]. unfold _get_async_task_for_node_execution.
  destruct (_node_tasks s !! n) as [st|] eqn:Hn; [done|].
  assert (n ∈ candidates) as Hin by by apply Hd, is_dependency_ids.
  assert (_dependencies (record (create_task n) (add_task n s))
          = _dependencies s) as Hdeps.
  { unfold record. by destruct (task_recorder _). }
  split; [|split; [done|]].
  - split; [|by unfold dependency_ids; rewrite Hdeps].
    rewrite record_tasks. simpl. rewrite dom_insert.
    apply union_least; [|done]. by apply singleton_subseteq_l.
  - intros m. unfold started. rewrite record_tasks. simpl.
    destruct (decide (m = n)) as [->|Hne].
    + by rewrite Hn.
    + by rewrite lookup_insert_ne.
Qed.

Lemma task_progresses s nid s1 s2 (k : nat) st :
  _node_tasks s !! nid = Some Scheduled → st ≠ Scheduled →
  progresses candidates (set_task_state nid Running s) s1 →
  touches nid k s1 s2 →
  progresses candidates s (set_task_state nid st s2).
Proof.
  intros Hs Hst H1 Ht Hw.
  assert (nid ∈ candidates) as Hin.
  { destruct Hw as [Hw _]. apply Hw, elem_of_dom. by eexists. }
  destruct (H1 (within_set_task _ _ _ Hin Hw)) as ([Hw1 Hw1'] & Hd1 & Hs1).
  apply touches_tasks in Ht as (Et & _ & _ & Ed & _).
  split; [|split].
  - apply within_set_task; [done|]. split; [by rewrite Et|].
    unfold dependency_ids in *. by rewrite Ed.
  - simpl. by rewrite Ed, Hd1.
  - intros n Hn. apply started_set_task; [|done].
    unfold started. rewrite Et. apply Hs1. by apply started_set_task.
Qed.

Lemma running_progresses s nid s1 :
  _node_tasks s !! nid = Some Scheduled →
  progresses candidates (set_task_state nid Running s) s1 →
  progresses candidates s s1.
Proof.
  intros Hs H1 Hw.
  assert (nid ∈ candidates) as Hin.
  { destruct Hw as [Hw _]. apply Hw, elem_of_dom. by eexists. }
  destruct (H1 (within_set_task _ _ _ Hin Hw)) as (Hw1 & Hd1 & Hs1).
  split; [done|]. split; [done|].
  intros n Hn. by apply Hs1, started_set_task.
Qed.

Lemma await_task_progresses fuel s nid s' r :
  await_task fuel s nid = Some (s', r) → progresses candidates s s'.
Proof.
  apply (await_task_rel isoformat str create_node (progresses candidates)).
  - apply progresses_refl.
  - apply progresses_trans.
  - apply handle_progresses.
  - intros s0 n s1 s2 k r0 Hs H1 Ht _ _. by eapply task_progresses.
  - intros s0 n s1 Hs _ H1. by eapply running_progresses.
Qed.

Lemma waiting_shrinks s s' :
  within candidates s → progresses candidates s s' →
  (size (waiting candidates s') ≤ size (waiting candidates s))%nat.
Proof.
  intros Hw Hp. destruct (Hp Hw) as (_ & _ & Hs).
  apply subseteq_size. intros n Hn.
  apply elem_of_filter in Hn as [Hn Hc]. apply elem_of_filter.
  split; [|done]. destruct (started s n) eqn:E; [|done].
  by rewrite (Hs n E) in Hn.
Qed.

Lemma waiting_running s nid :
  within candidates s → _node_tasks s !! nid = Some Scheduled →
  (size (waiting candidates (set_task_state nid Running s))
   < size (waiting candidates s))%nat.
Proof.
  intros [Hw _] Hs. apply subset_size.
  assert (nid ∈ candidates) as Hin by (apply Hw, elem_of_dom; by eexists).
  split.
  - intros n Hn. apply elem_of_filter in Hn as [Hn Hc]. apply elem_of_filter.
    split; [|done]. destruct (started s n) eqn:E; [|done].
    by rewrite (started_set_task s nid Running n E) in Hn.
  - intros Hsub.
    assert (nid ∈ waiting candidates s) as Hnid.
    { apply elem_of_filter. split; [|done]. unfold started. by rewrite Hs. }
    apply Hsub, elem_of_filter in Hnid as [Hf _].
    unfold started in Hf. simpl in Hf. by rewrite lookup_insert_eq in Hf.
Qed.

Section Await.
Variable await : WorkflowExecutor → string → option (WorkflowExecutor * Awaited).
Variable depth : nat.
Hypothesis await_progresses :
  ∀ s n s' r, await s n = Some (s', r) → progresses candidates s s'.
Hypothesis await_total :
  ∀ s n, within candidates s → (size (waiting candidates s) < depth)%nat →
         is_Some (await s n).

Lemma await_each_total nids s :
  within candidates s → (size (waiting candidates s) < depth)%nat →
  is_Some (await_each await s nids).
Proof.
  revert s. induction nids as [|n nids IH]; simpl; intros s Hw Hsize; [done|].
  destruct (await_total s n Hw Hsize) as [[s1 r] E]. rewrite E. simpl.
  pose proof (await_progresses _ _ _ _ E) as Hp.
  destruct (IH s1) as [[s2 rs] E2].
  - by apply Hp.
  - pose proof (waiting_shrinks _ _ Hw Hp). lia.
  - by rewrite E2.
Qed.

Lemma execute_node_total s nid :
  within candidates s → (size (waiting candidates s) < depth)%nat →
  is_Some (_execute_node_with isoformat str create_node await s nid).
Proof.
  intros Hw Hsize. unfold _execute_node_with, finish.
  destruct (_node_dict s !! nid) as [node|]; [|done].
  destruct (_outputs s !! nid) as [o|]; [done|].
  destruct (elements (default ∅ (_dependencies s !! nid)))
    as [|d deps'] eqn:Hdeps; [done|].
  rewrite <- Hdeps.
  set (deps := elements (default ∅ (_dependencies s !! nid))).
  assert (progresses candidates s
            (foldl _get_async_task_for_node_execution s deps)) as Hp.
  { apply handles_rel;
      [apply progresses_refl|apply progresses_trans|apply handle_progresses|].
    apply Forall_forall. intros m Hm. unfold deps in Hm.
    apply elem_of_elements in Hm.
    destruct (_dependencies s !! nid) as [ds|] eqn:Hds; [|done].
    by exists nid, ds. }
  destruct (await_each_total deps
              (foldl _get_async_task_for_node_execution s deps))
    as [[s1 rs] E].
  - by apply Hp.
  - pose proof (waiting_shrinks _ _ Hw Hp). lia.
  - rewrite E. simpl. by destruct (gather rs).
Qed.
End Await.

(** Awaiting a task gives a result when the fuel exceeds the number of
    candidates that have not begun to run. *)
Theorem await_task_total fuel s nid :
  within candidates s → (size (waiting candidates s) < fuel)%nat →
  is_Some (await_task fuel s nid).
Proof.
  revert s nid. induction fuel as [|fuel IH]; intros s nid Hw Hsize; [lia|].
  simpl. destruct (_node_tasks s !! nid) as [[| |x]|] eqn:Ht; try done.
  assert (nid ∈ candidates) as Hin.
  { destruct Hw as [Hw _]. apply Hw, elem_of_dom. by eexists. }
  pose proof (waiting_running s nid Hw Ht) as Hless.
  destruct (execute_node_total (await_task fuel) fuel
              (await_task_progresses fuel) IH
              (set_task_state nid Running s) nid) as [[s1 r] E].
  - by apply within_set_task.
  - lia.
  - rewrite E. simpl. by destruct r.
Qed.

Lemma await_tasks_total fuel nids s :
  within candidates s → (size (waiting candidates s) < fuel)%nat →
  is_Some (await_each (await_task fuel) s nids).
Proof.
  apply await_each_total.
  - apply await_task_progresses.
  - intros s0 n. apply await_task_total.
Qed.
End Termination.

Section RunTerminates.
Variable isoformat : Z → string.
Variable str : PyVal → string.
Variable create_node : string → string → list (string * PyVal) → Try BaseNode.

Implicit Types (s self : WorkflowExecutor).

Lemma use_precomputed_dependencies self nid output self' r :
  use_precomputed create_node self nid output = (self', r) →
  _dependencies self' = _dependencies self.
Proof.
  unfold use_precomputed. intros H.
  destruct output as [d|l]; [|by injection H as <- <-].
  destruct (_node_dict self !! nid) as [node|]; [|by injection H as <- <-].
  destruct (create_node _ _ _) as [inst|e].
  - destruct (output_model inst) as [validate|]; [|by injection H as <- <-].
    by destruct (validate d) as [o|]; injection H as <- <-.
  - by destruct (caught_in_precomputed_loop e); injection H as <- <-.
Qed.

Lemma precomputed_loop_dependencies items self self' r :
  precomputed_loop create_node self items = (self', r) →
  _dependencies self' = _dependencies self.
Proof.
  revert self. induction items as [|[nid output] items IH]; simpl; intros self H.
  { by injection H as <- <-. }
  destruct (use_precomputed create_node self nid output) as [s1 [[]|e]] eqn:E;
    apply use_precomputed_dependencies in E.
  - apply IH in H. congruence.
  - by injection H as <- <-.
Qed.

Lemma pop_outputs_dependencies (nids : list string) self :
  _dependencies (foldl pop_output self nids) = _dependencies self
  ∧ _node_dict (foldl pop_output self nids) = _node_dict self.
Proof.
  revert self. induction nids as [|n nids IH]; simpl; intros self; [done|].
  by destruct (IH (pop_output self n)) as [-> ->].
Qed.

Lemma handles_within (nids : list string) candidates s :
  within candidates s → list_to_set nids ⊆ candidates →
  within candidates (foldl _get_async_task_for_node_execution s nids).
Proof.
  intros Hw Hsub.
  revert s Hw. induction nids as [|n nids IH]; simpl; intros s Hw; [done|].
  apply IH.
  { intros m Hm. apply Hsub. rewrite list_to_set_cons.
    by apply elem_of_union_r. }
  unfold _get_async_task_for_node_execution.
  destruct (_node_tasks s !! n); [done|].
  assert (n ∈ candidates) as Hn.
  { apply Hsub. rewrite list_to_set_cons.
    by apply elem_of_union_l, elem_of_singleton. }
  destruct Hw as [Ht Hd]. split.
  - rewrite record_tasks. simpl. rewrite dom_insert.
    apply union_least; [by apply singleton_subseteq_l|done].
  - unfold dependency_ids, record. by destruct (task_recorder _).
Qed.

End RunTerminates.


(* ===================================================================== *)
(** ** Output serializer: what becomes of datetimes *)
(* ===================================================================== *)

Section SerializerDatetimes.
Variable isoformat : Z → string.
Variable str : PyVal → string.

Local Abbreviation _serialize_value := (_serialize_value isoformat str).

(** Induction on values, with the hypothesis for every value of a
    dictionary and every item of a list. *)
Lemma PyVal_containers_ind (P : PyVal → Prop) :
  (∀ items, Forall (λ kv, P kv.2) items → P (PDict items)) →
  (∀ items, Forall P items → P (PList items)) →
  (∀ v, (∀ items, v ≠ PDict items) → (∀ items, v ≠ PList items) → P v) →
  ∀ v, P v.
Proof.
  intros Hdict Hlist Hother. fix IH 1. intros v.
  destruct v as [| | | | |elems|items|items|items|tag];
    try (apply Hother; intros; discriminate).
  - apply Hdict. induction items as [|[k x] items IHitems].
    + constructor.
    + constructor; [exact (IH x)|exact IHitems].
  - apply Hlist. induction items as [|x items IHitems].
    + constructor.
    + constructor; [exact (IH x)|exact IHitems].
Qed.

Lemma dict_set_items {V : Type} (k : string) (v : V) d kv :
  kv ∈ dict_set k v d → kv = (k, v) ∨ kv ∈ d.
Proof.
  induction d as [|[k' v'] d IH]; simpl.
  - intros ->%list_elem_of_singleton. by left.
  - destruct (bool_decide (k = k')) eqn:E.
    + apply bool_decide_eq_true in E as ->.
      intros [->|H]%elem_of_cons; [by left|]. right. by apply elem_of_cons; right.
    + intros [->|H]%elem_of_cons.
      * right. by apply elem_of_cons; left.
      * destruct (IH H) as [->|H']; [by left|].
        right. by apply elem_of_cons; right.
Qed.

Lemma dict_of_items_subset {V : Type} (items : list (string * V)) kv :
  kv ∈ dict_of_items items → kv ∈ items.
Proof.
  unfold dict_of_items.
  assert (∀ acc, kv ∈ foldl (λ d kv, dict_set kv.1 kv.2 d) acc items →
                 kv ∈ acc ∨ kv ∈ items) as H.
  { induction items as [|[k v] items IH]; simpl; intros acc Hin; [by left|].
    destruct (IH _ Hin) as [Hacc|Hitems].
    - apply dict_set_items in Hacc as [->|Hacc]; [|by left].
      right. by apply elem_of_cons; left.
    - right. by apply elem_of_cons; right. }
  intros Hin. destruct (H [] Hin) as [Hnil|Hitems]; [|done].
  by apply elem_of_nil in Hnil.
Qed.

Lemma serialize_value_no_datetime v :
  reaches is_set v = false →
  reaches is_datetime (_serialize_value v) = false.
Proof.
  induction v as [items IHdict|items IHlist|v Hdict Hlist]
    using PyVal_containers_ind.
  3:{ destruct v; try done; [by destruct (Hdict items)|by destruct (Hlist items)]. }
  - intros Hsets. simpl in *.
    apply not_true_is_false. intros Hex.
    apply existsb_exists in Hex as ([k x] & Hin & Hx).
    apply list_elem_of_In, list_elem_of_fmap in Hin as ([k' x'] & [= -> ->] & Hin).
    apply dict_of_items_subset, list_elem_of_fmap in Hin
      as ([key value] & [= -> ->] & Hin).
    rewrite Forall_forall in IHdict. specialize (IHdict _ Hin). simpl in IHdict.
    rewrite IHdict in Hx; [done|].
    apply not_true_is_false. intros Hset.
    rewrite <- not_true_iff_false in Hsets. apply Hsets.
    apply existsb_exists. exists (key, value).
    split; [by apply list_elem_of_In|done].
  - intros Hsets. simpl in *.
    apply not_true_is_false. intros Hex.
    apply existsb_exists in Hex as (x & Hin & Hx).
    apply in_map_iff in Hin as (x' & <- & Hin).
    rewrite Forall_forall in IHlist.
    rewrite (IHlist x') in Hx; [done|by apply list_elem_of_In|].
    apply not_true_is_false. intros Hset.
    rewrite <- not_true_iff_false in Hsets. apply Hsets.
    apply existsb_exists. by exists x'.
Qed.


End SerializerDatetimes.


(* ===================================================================== *)
(** ** Subworkflow hoisting: which nodes come out *)
(* ===================================================================== *)

Section HoistingResult.
Implicit Types (n : WorkflowNodeSchema) (ns : list WorkflowNodeSchema).
Implicit Types (groups : list (option string * list WorkflowNodeSchema)).

Lemma clear_parent_root n : parent_id n = None → clear_parent n = n.
Proof. destruct n as [i t ty c p]. simpl. by intros ->. Qed.

Lemma in_group_roots ns :
  Forall (λ n, parent_id n = None) ns → in_group None ns = ns.
Proof.
  unfold in_group. induction 1 as [|n ns Hn _ IH]; simpl; [done|].
  rewrite bool_decide_eq_true_2 by done. simpl.
  by rewrite clear_parent_root, IH.
Qed.

Lemma group_get_keys p groups :
  p ∈ map fst groups → is_Some (group_get p groups).
Proof.
  induction groups as [|[k c] groups IH]; simpl; [by intros ?%elem_of_nil|].
  destruct (bool_decide (p = k)) eqn:E; [by eauto|].
  apply bool_decide_eq_false_1 in E.
  intros [->|H]%elem_of_cons; [done|auto].
Qed.

(** A key of [nodes_by_parent] is the [parent_id] of some node. *)
Lemma nodes_by_parent_keys workflow p :
  p ∈ map fst (nodes_by_parent workflow) →
  ∃ n, n ∈ nodes workflow ∧ parent_id n = p.
Proof.
  intros [c Hc]%group_get_keys. rewrite nodes_by_parent_get in Hc.
  unfold children_of, in_group in Hc.
  destruct (List.filter _ (nodes workflow)) as [|n l] eqn:E; [done|].
  assert (In n (List.filter (λ n, bool_decide (parent_id n = p))
                  (nodes workflow))) as Hn by (rewrite E; by left).
  apply filter_In in Hn as [Hn Hp]. apply bool_decide_eq_true_1 in Hp.
  exists n. by rewrite list_elem_of_In.
Qed.

Lemma attach_roots_only workflow groups ns :
  Forall (λ g, g.1 = None) groups →
  foldl (attach_subworkflow workflow) ns groups = ns.
Proof.
  revert ns. induction 1 as [|[k c] groups Hk _ IH]; simpl; intros; [done|].
  simpl in Hk. subst k. apply IH.
Qed.

Lemma update_first_attributes {A : Type} (g : WorkflowNodeSchema → A) pid f ns :
  (∀ n, g (f n) = g n) →
  map g (update_first pid f ns) = map g ns.
Proof.
  intros Hf. induction ns as [|n ns IH]; simpl; [done|].
  destruct (bool_decide (node_id n = pid)); simpl; [by rewrite Hf|by rewrite IH].
Qed.

Lemma attach_all_attributes {A : Type} (g : WorkflowNodeSchema → A)
    workflow groups ns :
  (∀ n cfg, g (set_config cfg n) = g n) →
  map g (foldl (attach_subworkflow workflow) ns groups) = map g ns.
Proof.
  intros Hg. revert ns.
  induction groups as [|[[pid|] c] groups IH]; simpl; intros ns; [done| |done].
  rewrite IH. apply update_first_attributes. intros n. apply Hg.
Qed.

Lemma filter_all {A : Type} (p : A → bool) (l : list A) :
  Forall (λ x, p x = true) l → List.filter p l = l.
Proof.
  induction 1 as [|x l Hx _ IH]; simpl; [done|]. by rewrite Hx, IH.
Qed.

Lemma flat_workflow_unchanged workflow :
  Forall (λ n, parent_id n = None) (nodes workflow) →
  _process_subworkflows workflow = workflow.
Proof.
  intros Hflat. unfold _process_subworkflows.
  rewrite root_nodes_are_children. unfold children_of.
  rewrite in_group_roots by done.
  rewrite attach_roots_only.
  2:{ apply Forall_forall. intros [k c] Hg. simpl.
      destruct (nodes_by_parent_keys workflow k) as (n & Hn & <-).
      - apply list_elem_of_fmap. by exists (k, c).
      - rewrite Forall_forall in Hflat. by apply Hflat. }
  rewrite filter_all.
  2:{ apply Forall_forall. intros link _. apply top_level_link_spec.
      intros n Hn _. rewrite Forall_forall in Hflat.
      by rewrite (Hflat n Hn). }
  by destruct workflow.
Qed.

(** X2.  [_process_subworkflows] returns a workflow in which no node has
    a parent unchanged, and, its result being such a workflow, applying
    it twice gives what applying it once gives. *)
Theorem process_subworkflows_idempotent workflow :
  (Forall (λ n, parent_id n = None) (nodes workflow) →
   _process_subworkflows workflow = workflow)
  ∧ _process_subworkflows (_process_subworkflows workflow)
    = _process_subworkflows workflow.
Proof.
  split; [apply flat_workflow_unchanged|].
  apply flat_workflow_unchanged, Forall_forall.
  apply hoisted_nodes_have_no_parent.
Qed.

(** X3.  The nodes [_process_subworkflows] returns are the nodes whose
    [parent_id] is [None], in their order, with their id, title and type:
    a node with any other [parent_id], the empty string included, is not
    returned.  A top-level node that is the parent of no node is returned
    as it is. *)
Theorem process_subworkflows_returns_root_nodes workflow :
  map (λ n, (node_id n, title n, node_type n))
      (nodes (_process_subworkflows workflow))
  = map (λ n, (node_id n, title n, node_type n))
        (List.filter (λ n, bool_decide (parent_id n = None)) (nodes workflow))
  ∧ ∀ n, n ∈ nodes workflow → parent_id n = None →
         (∀ m, m ∈ nodes workflow → parent_id m ≠ Some (node_id n)) →
         n ∈ nodes (_process_subworkflows workflow).
Proof.
  unfold _process_subworkflows. simpl. rewrite root_nodes_are_children.
  unfold children_of, in_group. split.
  - rewrite attach_all_attributes by done.
    generalize (nodes workflow). intros ns.
    induction ns as [|n ns IH]; simpl; [done|].
    repeat case_bool_decide; simpl; try done. by rewrite IH.
  - intros n Hn Hroot Hchildless. apply attach_all_other.
    + apply list_elem_of_fmap. exists n. split; [by rewrite clear_parent_root|].
      apply list_elem_of_In, filter_In. split; [by apply list_elem_of_In|].
      by apply bool_decide_eq_true_2.
    + intros (m & Hm & Hp)%nodes_by_parent_keys. by apply (Hchildless m).
Qed.
End HoistingResult.

(* ===================================================================== *)
(** ** Constructor: the dictionaries it builds *)
(* ===================================================================== *)

Section ConstructorResult.
Implicit Types (deps : gmap string (gset string)).
Implicit Types (link : WorkflowLinkSchema) (ls : list WorkflowLinkSchema).
Implicit Types (n : WorkflowNodeSchema) (ns : list WorkflowNodeSchema).

Lemma empty_dependencies_values ns (d : gmap string (gset string)) k ds :
  (∀ k ds, d !! k = Some ds → ds = ∅) →
  foldl (λ (d : gmap string (gset string)) node, <[node_id node := ∅]> d) d ns
    !! k = Some ds →
  ds = ∅.
Proof.
  revert d. induction ns as [|n ns IH]; simpl; intros d Hd; [apply Hd|].
  apply IH. intros k' ds'.
  destruct (decide (node_id n = k')) as [->|Hne].
  - rewrite lookup_insert_eq. congruence.
  - rewrite lookup_insert_ne by done. apply Hd.
Qed.

Lemma add_dependencies_lookup ls deps deps' t :
  foldl add_dependency (Return deps) ls = Return deps' →
  match deps' !! t with
  | Some sources' =>
      ∃ sources, deps !! t = Some sources
                 ∧ ∀ s, s ∈ sources'
                        ↔ s ∈ sources
                          ∨ ∃ link, link ∈ ls ∧ source_id link = s
                                    ∧ target_id link = t
  | None => deps !! t = None
  end.
Proof.
  revert deps. induction ls as [|l ls IH]; simpl; intros deps H.
  { injection H as <-. destruct (deps !! t) as [sources|]; [|done].
    exists sources. split; [done|]. intros s. split; [by left|].
    intros [?|(link & Hl%elem_of_nil & _)]; done. }
  destruct (deps !! target_id l) as [old|] eqn:Hold;
    [|by rewrite add_dependencies_raise in H].
  specialize (IH _ H). destruct (deps' !! t) as [sources'|].
  - destruct IH as (sources & Hsrc & Hiff).
    destruct (decide (target_id l = t)) as [Ht|Hne].
    + rewrite Ht, lookup_insert_eq in Hsrc. injection Hsrc as <-.
      exists old. split; [by rewrite <- Ht|]. intros s. rewrite Hiff.
      rewrite elem_of_union, elem_of_singleton. split.
      * intros [[?| ->]|(link & Hl & Hs & Hlt)].
        -- by left.
        -- right. exists l. split; [left|done].
        -- right. exists link. split; [by right|done].
      * intros [?|(link & [-> |Hl]%elem_of_cons & Hs & Hlt)].
        -- by left; left.
        -- left; right. done.
        -- right. by exists link.
    + rewrite lookup_insert_ne in Hsrc by done.
      exists sources. split; [done|]. intros s. rewrite Hiff. split.
      * intros [?|(link & Hl & Hs & Hlt)]; [by left|].
        right. exists link. split; [by right|done].
      * intros [?|(link & [-> |Hl]%elem_of_cons & Hs & Hlt)]; [by left|done|].
        right. by exists link.
  - destruct (decide (target_id l = t)) as [Ht|Hne].
    + by rewrite Ht, lookup_insert_eq in IH.
    + by rewrite lookup_insert_ne in IH.
Qed.

Lemma node_dict_lookup ns (d : gmap string WorkflowNodeSchema) nid :
  foldl (λ d node, <[node_id node := node]> d) d ns !! nid
  = match last (List.filter (λ n, bool_decide (node_id n = nid)) ns) with
    | Some n => Some n
    | None => d !! nid
    end.
Proof.
  revert d. induction ns as [|n ns IH]; simpl; intros d; [done|].
  rewrite IH. case_bool_decide as Hid; simpl.
  - rewrite last_cons. destruct (last _); [done|].
    by rewrite Hid, lookup_insert_eq.
  - destruct (last _); [done|]. by rewrite lookup_insert_ne.
Qed.

(** X4.  After a construction that succeeds, [_dependencies] has one key
    for every node id and no other, and under the key of a node are the
    sources of the links whose target is that node: [s] is a dependency of
    [t] iff some link goes from [s] to [t]. *)
Theorem constructor_dependencies_are_link_sources
    definition initial_inputs recorder self :
  __init__ definition initial_inputs recorder = Return self →
  (∀ t, is_Some (_dependencies self !! t)
        ↔ t ∈ map node_id (nodes definition))
  ∧ ∀ t sources, _dependencies self !! t = Some sources →
      ∀ s, s ∈ sources
           ↔ ∃ link, link ∈ links definition
                     ∧ source_id link = s ∧ target_id link = t.
Proof.
  unfold __init__, _build_dependencies.
  destruct (foldl add_dependency _ _) as [deps'|e] eqn:Hfold; [|done].
  intros [= <-]. simpl.
  pose proof (λ t, add_dependencies_lookup _ _ _ t Hfold) as Hlookup.
  split.
  - intros t. specialize (Hlookup t).
    pose proof (empty_dependencies_lookup (nodes definition) ∅ t) as Hkeys.
    rewrite lookup_empty in Hkeys.
    destruct (deps' !! t) as [sources'|].
    + destruct Hlookup as (sources & Hsrc & _). rewrite Hsrc in Hkeys.
      split; [|by eauto]. intros _.
      destruct (proj1 Hkeys) as [[? ?]|?]; by eauto.
    + rewrite Hlookup in Hkeys. split; [by intros [? ?]|].
      intros Hin. destruct (proj2 Hkeys) as [? ?]; [by right|done].
  - intros t sources Ht s. specialize (Hlookup t). rewrite Ht in Hlookup.
    destruct Hlookup as (old & Hold & ->).
    apply empty_dependencies_values in Hold as ->; [|by intros ? ?].
    rewrite elem_of_empty. tauto.
Qed.

Lemma constructor_dependencies_witness :
  ∃ self,
    __init__ Scenarios.linear ∅ true = Return self
    ∧ _dependencies self !! "b" = Some {[ "a" ]}
    ∧ ("a" ∈ ({[ "a" ]} : gset string)
       ↔ ∃ link, link ∈ links Scenarios.linear
                 ∧ source_id link = "a" ∧ target_id link = "b").
Proof.
  eexists. split; [reflexivity|]. split; [by vm_compute|].
  refine (proj2 (constructor_dependencies_are_link_sources
                   Scenarios.linear ∅ true _ eq_refl) "b" {[ "a" ]} _ "a").
  by vm_compute.
Defined.

(** X5.  [_node_dict] maps an id to the last node of the workflow with
    that id, and has no key that is not the id of a node; when the ids are
    distinct every node is found under its id. *)
Theorem node_dict_holds_last_node_with_id definition :
  (∀ nid,
     _build_node_dict definition !! nid
     = last (List.filter (λ n, bool_decide (node_id n = nid))
               (nodes definition)))
  ∧ (NoDup (map node_id (nodes definition)) →
     ∀ n, n ∈ nodes definition →
          _build_node_dict definition !! node_id n = Some n).
Proof.
  assert (∀ nid,
            _build_node_dict definition !! nid
            = last (List.filter (λ n, bool_decide (node_id n = nid))
                      (nodes definition))) as Hlast.
  { intros nid. unfold _build_node_dict. rewrite node_dict_lookup.
    by destruct (last _). }
  split; [exact Hlast|].
  intros Hnd n Hn. rewrite Hlast. clear Hlast.
  induction (nodes definition) as [|m ns IH]; [by apply elem_of_nil in Hn|].
  apply NoDup_cons in Hnd as [Hm Hnd]. simpl.
  apply elem_of_cons in Hn as [->|Hn].
  - rewrite bool_decide_eq_true_2 by done.
    assert (List.filter (λ n, bool_decide (node_id n = node_id m)) ns = [])
      as ->; [|done].
    clear -Hm. induction ns as [|x ns IH]; simpl; [done|].
    apply not_elem_of_cons in Hm as [Hx Hm].
    rewrite bool_decide_eq_false_2 by done. auto.
  - rewrite bool_decide_eq_false_2.
    + by apply IH.
    + intros Heq. apply Hm. rewrite Heq. apply list_elem_of_fmap. eauto.
Qed.
End ConstructorResult.

(* ===================================================================== *)
(** ** Source handles: the mapping that is returned *)
(* ===================================================================== *)

Section SourceHandles.
Implicit Types (link : WorkflowLinkSchema) (ls : list WorkflowLinkSchema).
Implicit Types (acc : gmap (string * string) string).

Lemma add_source_handle_accepts self acc link :
  ¬ link_is_rejected self link →
  ∃ acc', add_source_handle self (Return acc) link = Return acc'.
Proof.
  unfold link_is_rejected, add_source_handle. intros Hok.
  destruct (_node_dict self !! source_id link) as [n|]; [|by destruct Hok].
  case_bool_decide as Hrouter; [|by eauto].
  destruct (source_handle link) as [h|] eqn:Hh.
  - destruct (truthy (Some h)) eqn:Ht; [by eauto|]. by destruct Hok.
  - by destruct Hok.
Qed.

Lemma add_source_handles_accept self ls acc :
  (∀ link, link ∈ ls → ¬ link_is_rejected self link) →
  ∃ acc', foldl (add_source_handle self) (Return acc) ls = Return acc'.
Proof.
  revert acc. induction ls as [|l ls IH]; cbn [foldl]; intros acc Hok;
    [by eauto|].
  destruct (add_source_handle_accepts self acc l) as [acc' ->].
  - apply Hok. by left.
  - apply IH. intros link Hl. apply Hok. by right.
Qed.

(** One link changes the entry of its own pair of ids, when its source
    is a router, and no other entry. *)
Lemma add_source_handle_lookup self acc link acc' s t :
  add_source_handle self (Return acc) link = Return acc' →
  acc' !! (s, t)
  = if bool_decide (source_id link = s ∧ target_id link = t)
    then match _node_dict self !! s with
         | Some n =>
             if bool_decide (node_type n = "RouterNode")
             then source_handle link else acc !! (s, t)
         | None => acc !! (s, t)
         end
    else acc !! (s, t).
Proof.
  unfold add_source_handle.
  destruct (_node_dict self !! source_id link) as [n|] eqn:Hn; [|done].
  case_bool_decide as Hrouter.
  - destruct (source_handle link) as [h|] eqn:Hh; [|done].
    destruct (truthy (Some h)); [|done]. intros [= <-].
    case_bool_decide as Hpair.
    + destruct Hpair as [<- <-]. rewrite Hn, bool_decide_eq_true_2 by done.
      by rewrite lookup_insert_eq.
    + rewrite lookup_insert_ne; [done|]. intros [= ? ?]. by apply Hpair.
  - intros [= <-]. case_bool_decide as Hpair; [|done].
    destruct Hpair as [<- <-]. rewrite Hn.
    by rewrite bool_decide_eq_false_2.
Qed.

Lemma add_source_handles_lookup self ls acc sh s t :
  foldl (add_source_handle self) (Return acc) ls = Return sh →
  sh !! (s, t)
  = match _node_dict self !! s,
          last (List.filter
                  (λ link, bool_decide (source_id link = s ∧ target_id link = t))
                  ls) with
    | Some n, Some link =>
        if bool_decide (node_type n = "RouterNode")
        then source_handle link else acc !! (s, t)
    | _, _ => acc !! (s, t)
    end.
Proof.
  revert acc. induction ls as [|l ls IH]; cbn [foldl]; intros acc Hfold.
  { injection Hfold as <-. simpl. by destruct (_node_dict self !! s). }
  destruct (add_source_handle self (Return acc) l) as [acc'|e] eqn:Hstep;
    [|by rewrite add_source_handles_raise in Hfold].
  rewrite (IH _ Hfold).
  rewrite (add_source_handle_lookup _ _ _ _ s t Hstep). simpl.
  case_bool_decide as Hpair.
  - rewrite last_cons.
    destruct (_node_dict self !! s) as [n|]; [|done].
    destruct (last _) as [l'|]; [|done].
    by case_bool_decide.
  - done.
Qed.

(** X6.  [_get_source_handles] returns a mapping iff no link has a
    source that is not a node, or a router as its source and no (or an
    empty) [source_handle].  The mapping it returns has, for a pair of
    ids whose first is a router, the handle of the last link between the
    two, and no entry for any other pair. *)
Theorem source_handles_of_router_links self :
  ((∃ source_handles, _get_source_handles self = Return source_handles)
   ↔ ∀ link, link ∈ links (workflow self) → ¬ link_is_rejected self link)
  ∧ ∀ source_handles s t,
      _get_source_handles self = Return source_handles →
      source_handles !! (s, t)
      = match _node_dict self !! s,
              last (List.filter
                      (λ link,
                         bool_decide (source_id link = s ∧ target_id link = t))
                      (links (workflow self))) with
        | Some n, Some link =>
            if bool_decide (node_type n = "RouterNode")
            then source_handle link else None
        | _, _ => None
        end.
Proof.
  split; [split|].
  - intros [sh Hsh] link Hl Hbad.
    destruct (add_source_handles_reject self _ (Return ∅) link Hl Hbad)
      as [e He].
    unfold _get_source_handles in Hsh. congruence.
  - apply add_source_handles_accept.
  - intros sh s t Hsh. unfold _get_source_handles in Hsh.
    rewrite (add_source_handles_lookup _ _ _ _ s t Hsh), lookup_empty.
    destruct (_node_dict self !! s); [|done]. by destruct (last _).
Qed.
End SourceHandles.

(* ===================================================================== *)
(** ** Node execution: missing input, failed dependencies, the plain case *)
(* ===================================================================== *)

Section NodeProtocol.
Variable isoformat : Z → string.
Variable str : PyVal → string.
Variable create_node : string → string → list (string * PyVal) → Try BaseNode.

Implicit Types (s self : WorkflowExecutor).

Local Abbreviation after_gather := (after_gather isoformat str create_node).
Local Abbreviation instantiate_and_invoke :=
  (instantiate_and_invoke isoformat str create_node).
Local Abbreviation await_task := (await_task isoformat str create_node).
Local Abbreviation _execute_node := (_execute_node isoformat str create_node).

Lemma statuses_of_app nid h1 h2 :
  statuses_of nid (h1 ++ h2) = statuses_of nid h1 ++ statuses_of nid h2.
Proof. apply omap_app. Qed.

Lemma statuses_of_record nid status outputs error flag self :
  statuses_of nid (history (record (update_task nid status outputs error flag)
                              self))
  = statuses_of nid (history self)
    ++ (if task_recorder self then [(status, flag)] else []).
Proof.
  unfold record. destruct (task_recorder self); [|by rewrite app_nil_r].
  simpl. rewrite statuses_of_app. simpl.
  by rewrite bool_decide_eq_true_2.
Qed.

Lemma statuses_of_emit nid e self :
  (∀ c, e ≠ Recorder c) →
  statuses_of nid (history (emit e self)) = statuses_of nid (history self).
Proof.
  intros He. simpl. rewrite statuses_of_app. simpl.
  destruct e as [c| | |]; [by destruct (He c)|..]; simpl; apply app_nil_r.
Qed.

Lemma record_recorder c self : task_recorder (record c self) = task_recorder self.
Proof. unfold record. by destruct (task_recorder self) eqn:E. Qed.

Lemma emit_recorder e self : task_recorder (emit e self) = task_recorder self.
Proof. reflexivity. Qed.

Lemma emit_failed e self : _failed_nodes (emit e self) = _failed_nodes self.
Proof. reflexivity. Qed.

Lemma inputs_of_invoke nid node_input self :
  inputs_of nid (history (emit (Invoke nid Execution node_input) self))
  = inputs_of nid (history self) ++ [node_input].
Proof.
  simpl. rewrite inputs_of_app. simpl. by rewrite bool_decide_eq_true_2.
Qed.

Lemma inputs_of_factory nid n use self :
  inputs_of nid (history (emit (Factory n use) self))
  = inputs_of nid (history self).
Proof. simpl. rewrite inputs_of_app. simpl. apply app_nil_r. Qed.

Lemma statuses_of_invoke nid n use node_input self :
  statuses_of nid (history (emit (Invoke n use node_input) self))
  = statuses_of nid (history self).
Proof. by apply statuses_of_emit. Qed.

Lemma statuses_of_factory nid n use self :
  statuses_of nid (history (emit (Factory n use) self))
  = statuses_of nid (history self).
Proof. by apply statuses_of_emit. Qed.

(** Reading a state built from recorder calls, factory calls,
    invocations and writes to [_outputs] and [_failed_nodes]. *)
Local Ltac read_state :=
  repeat (rewrite ?record_outputs, ?record_failed, ?inputs_of_record,
            ?count_instantiation_record, ?statuses_of_record,
            ?record_recorder, ?emit_recorder, ?emit_failed,
            ?inputs_of_invoke, ?inputs_of_factory,
            ?statuses_of_invoke, ?statuses_of_factory;
          cbn [add_failed set_output _outputs _failed_nodes history
               task_recorder]).

Lemma execute_node_without_dependencies fuel self nid node :
  _node_dict self !! nid = Some node →
  _outputs self !! nid = None →
  default ∅ (_dependencies self !! nid) = ∅ →
  _execute_node fuel self nid
  = finish (handlers nid (after_gather self node nid [] [])).
Proof.
  intros Hn Ho Hd. unfold _execute_node, _execute_node_with.
  by rewrite Hn, Ho, Hd, elements_empty.
Qed.

Lemma after_gather_without_dependencies self node nid source_handles :
  _get_source_handles self = Return source_handles →
  after_gather self node nid [] []
  = instantiate_and_invoke self node nid (final_input self node nid ∅).
Proof. intros Hsh. unfold after_gather. simpl. by rewrite andb_false_r, Hsh. Qed.

Lemma await_each_length await nids s s' rs :
  await_each await s nids = Some (s', rs) → length rs = length nids.
Proof.
  revert s rs. induction nids as [|n nids IH]; simpl; intros s rs H.
  - by injection H as <- <-.
  - destruct (await s n) as [[s1 r]|]; [|done]. simpl in H.
    destruct (await_each await s1 nids) as [[s2 rs']|] eqn:E; [|done].
    simpl in H. injection H as <- <-. simpl. by rewrite (IH _ _ E).
Qed.

Lemma gather_raises rs e :
  Finished (Raise e) ∈ rs → ∃ e', gather rs = GatherRaise e'.
Proof.
  intros Hin. unfold gather.
  assert (is_Some (first_exception rs)) as [e' ->]; [|by eauto].
  induction rs as [|r rs IH]; [by apply elem_of_nil in Hin|].
  apply elem_of_cons in Hin as [<-|Hin]; simpl; [by eauto|].
  destruct r as [[o|e0]|]; by eauto.
Qed.

Lemma gather_returns (outs : list BaseNodeOutput) :
  gather ((λ o, Finished (Return (Some o))) <$> outs)
  = GatherReturn (Some <$> outs).
Proof.
  unfold gather.
  assert (first_exception ((λ o, Finished (Return (Some o))) <$> outs) = None)
    as ->.
  { induction outs as [|o outs IH]; simpl; [done|exact IH]. }
  assert (all_returned ((λ o, Finished (Return (Some o))) <$> outs)
          = Some (Some <$> outs)) as ->; [|done].
  induction outs as [|o outs IH]; [done|].
  rewrite !fmap_cons. cbn [all_returned]. by rewrite IH.
Qed.


(** X8.  A node one of whose dependencies raised, or, the dependencies
    having all returned and none of them blocking it by a pause, one of
    whose dependencies is in [_failed_nodes]: it is neither instantiated
    nor invoked, its task raises [UpstreamFailure], [_outputs] gets [None]
    for it, it joins [_failed_nodes], and the recorder is told
    [CANCELED]. *)
Theorem failed_dependency_cancels_node fuel self nid node deps self1 rs :
  _node_dict self !! nid = Some node →
  _outputs self !! nid = None →
  elements (default ∅ (_dependencies self !! nid)) = deps →
  await_each (await_task fuel)
    (foldl _get_async_task_for_node_execution self deps) deps
    = Some (self1, rs) →
  (∃ e, Finished (Raise e) ∈ rs)
  ∨ (∃ preds d, gather rs = GatherReturn preds
                ∧ blocked_by_pause self1 nid deps = false
                ∧ d ∈ deps ∧ d ∈ _failed_nodes self1) →
  ∃ self',
    _execute_node fuel self nid
      = Some (self', Finished (Raise (UpstreamFailure (skipped_msg nid))))
    ∧ _outputs self' !! nid = Some None
    ∧ _failed_nodes self' = _failed_nodes self1 ∪ {[nid]}
    ∧ inputs_of nid (history self') = inputs_of nid (history self1)
    ∧ count_events (is_instantiation Execution nid) (history self')
      = count_events (is_instantiation Execution nid) (history self1)
    ∧ statuses_of nid (history self')
      = statuses_of nid (history self1)
        ++ (if task_recorder self1 then [(CANCELED, false)] else []).
Proof.
  intros Hn Ho Hd Ha Hcase.
  assert (deps ≠ []) as Hne.
  { intros ->. simpl in Ha. injection Ha as <- <-.
    destruct Hcase as [[e He]|(preds & d & _ & _ & Hin & _)];
      by eapply elem_of_nil. }
  assert (_execute_node fuel self nid
          = finish (handlers nid
                      (self1, Raise (UpstreamFailure (skipped_msg nid))))
          ∨ _execute_node fuel self nid
            = finish (handlers nid
                        (add_failed nid self1,
                         Raise (UpstreamFailure (skipped_msg nid)))))
    as Hexec.
  { destruct Hcase as [[e He]|(preds & d & Hg & Hb & Hin & Hf)].
    - left. destruct (gather_raises _ _ He) as [e' Hg].
      unfold _execute_node, _execute_node_with. rewrite Hn, Ho, Hd.
      destruct deps as [|d0 deps0]; [done|]. rewrite Ha. simpl.
      by rewrite Hg.
    - right.
      rewrite (execute_node_gathered isoformat str create_node _ _ _ _ _ _ _ _
                 Hn Ho Hd Hne Ha Hg).
      unfold after_gather. rewrite Hb.
      replace (existsb _ deps) with true; [done|].
      symmetry. apply existsb_exists. exists d.
      split; [by apply list_elem_of_In|by apply bool_decide_eq_true_2]. }
  destruct Hexec as [-> | ->]; unfold finish; cbn [handlers fst snd];
    (eexists; split; [reflexivity|]);
    read_state; rewrite lookup_insert_eq; repeat split.
  apply set_eq. intros x. rewrite !elem_of_union. tauto.
Qed.

End NodeProtocol.


Lemma failed_dependency_witness :
  ∃ self',
    _execute_node Scenarios.iso Scenarios.key_str Scenarios.factory 1
      Scenarios.after_failure "n"
      = Some (self',
              Finished (Raise (UpstreamFailure
                                 "Node n skipped due to upstream failure")))
    ∧ _outputs self' !! "n" = Some None
    ∧ statuses_of "n" (history self') = [(CANCELED, false)].
Proof.
  destruct (failed_dependency_cancels_node
              Scenarios.iso Scenarios.key_str Scenarios.factory 1
              Scenarios.after_failure "n" (Scenarios.node "n" "Node")
              ["x"] Scenarios.after_failure
              [Finished (Raise (NodeError "boom"))]
              eq_refl eq_refl eq_refl eq_refl)
    as (self' & Hexec & Hout & _ & _ & _ & Hst).
  - left. exists (NodeError "boom"). left.
  - exists self'. split; [exact Hexec|]. split; [exact Hout|]. exact Hst.
Defined.

